(** * live-db-editor: the SQL batch splitter, the identifier guard, the
    type coercer and the generic row handlers, embedded from the sources

    Sources embedded here:
    - [src/unnamed/part_000] (the query executor component): [splitQueries],
      [handleExecuteQuery];
    - [src/server.js]: [getPrimaryKey], [sanitizeTableName],
      [sanitizeColumnName] and the handlers of the data and query routes;
    - [src/unnamed/part_000] (the application component): [fetchTables];
    - [src/frontend/src/EditableTable.jsx]: [safeTypeConvert], the payload
      that [handleSaveNewRows] posts, [handleAddRow], [handleCellEdit],
      [handleSaveCell] up to its request, and [getDisplayValue].

    JavaScript strings are modelled as [string] (sequences of 8-bit code
    units); [toUpperCase] and [toLowerCase] act on the ASCII letters. *)

From Stdlib Require Import ZArith NArith Ascii String List Bool Lia DecimalString.
From Stdlib Require DecimalPos DecimalN.
From stdpp Require Import base gmap strings list.

Local Open Scope Z_scope.
Local Open Scope nat_scope.

(** ** Characters and the string built-ins the sources call *)

Module Js.

Definition code (c : ascii) : N := N_of_ascii c.

Definition in_range (lo hi : N) (c : ascii) : bool :=
  ((lo <=? code c) && (code c <=? hi))%N.

(** WhiteSpace and LineTerminator code units below 256: TAB, LF, VT, FF,
    CR, SP and NBSP. *)
Definition is_white (c : ascii) : bool :=
  in_range 9 13 c || (code c =? 32)%N || (code c =? 160)%N.

Definition is_lower (c : ascii) : bool := in_range 97 122 c.
Definition is_upper (c : ascii) : bool := in_range 65 90 c.
Definition is_digit (c : ascii) : bool := in_range 48 57 c.

Definition upper_char (c : ascii) : ascii :=
  if is_lower c then ascii_of_N (code c - 32) else c.

Definition lower_char (c : ascii) : ascii :=
  if is_upper c then ascii_of_N (code c + 32) else c.

Fixpoint map_chars (f : ascii -> ascii) (s : string) : string :=
  match s with
  | EmptyString => EmptyString
  | String c s' => String (f c) (map_chars f s')
  end.

Definition toUpperCase : string -> string := map_chars upper_char.
Definition toLowerCase : string -> string := map_chars lower_char.

Fixpoint all_chars (p : ascii -> bool) (s : string) : bool :=
  match s with
  | EmptyString => true
  | String c s' => p c && all_chars p s'
  end.

Fixpoint trimStart (s : string) : string :=
  match s with
  | EmptyString => EmptyString
  | String c s' => if is_white c then trimStart s' else s
  end.

Fixpoint trimEnd (s : string) : string :=
  match s with
  | EmptyString => EmptyString
  | String c s' =>
      match trimEnd s' with
      | EmptyString => if is_white c then EmptyString else String c EmptyString
      | t => String c t
      end
  end.

Definition trim (s : string) : string := trimEnd (trimStart s).

Fixpoint startsWith (s prefix : string) : bool :=
  match prefix, s with
  | EmptyString, _ => true
  | String p prefix', String c s' => Ascii.eqb c p && startsWith s' prefix'
  | String _ _, EmptyString => false
  end.

(** [s.includes(t)]: [t] occurs in [s] at some index. *)
Fixpoint includes (s t : string) : bool :=
  startsWith s t ||
  match s with
  | EmptyString => false
  | String _ s' => includes s' t
  end.

Fixpoint drop (n : nat) (s : string) : string :=
  match n, s with
  | 0, _ => s
  | S n', String _ s' => drop n' s'
  | S _, EmptyString => EmptyString
  end.

(** [s.substring(p, q)] for [p <= q]. *)
Definition substring (p q : nat) (s : string) : string :=
  String.substring p (q - p) s.

(** JavaScript truthiness of a string, [!s] being its negation. *)
Definition truthy (s : string) : bool :=
  match s with EmptyString => false | _ => true end.

End Js.

(** ** Regular expressions

    The two patterns of the sources use character classes, concatenation,
    greedy repetition, the anchors [^] and [$] (no [m] flag: start and end of
    input) and one positive lookahead.  The matcher is the backtracking
    matcher of the language standard in continuation-passing style: a
    continuation receives the end index and the rest of the input. *)

Module Regex.

Inductive regex : Type :=
| Class (p : ascii -> bool)
| Seq (r1 r2 : regex)
| Star (r : regex)
| Bol
| Eol
| Lookahead (r : regex).

Definition Chr (c : ascii) : regex := Class (Ascii.eqb c).
Definition Plus (r : regex) : regex := Seq r (Star r).
Definition Twice (r : regex) : regex := Seq r r.

Definition Cont (A : Type) : Type := nat -> string -> option A.

(** Greedy [r*]: one more iteration first, then the continuation; an
    iteration that consumes nothing is refused. *)
Fixpoint star_loop {A} (body : nat -> string -> Cont A -> option A)
    (fuel i : nat) (s : string) (k : Cont A) : option A :=
  match fuel with
  | 0 => k i s
  | S fuel' =>
      match body i s (fun i' s' =>
               if String.length s' <? String.length s
               then star_loop body fuel' i' s' k else None) with
      | Some a => Some a
      | None => k i s
      end
  end.

Fixpoint rmatch {A} (r : regex) (i : nat) (s : string) (k : Cont A)
    : option A :=
  match r with
  | Class p =>
      match s with
      | String c s' => if p c then k (S i) s' else None
      | EmptyString => None
      end
  | Seq r1 r2 => rmatch r1 i s (fun i' s' => rmatch r2 i' s' k)
  | Star r1 => star_loop (rmatch r1) (String.length s) i s k
  | Bol => if i =? 0 then k i s else None
  | Eol => match s with EmptyString => k i s | String _ _ => None end
  | Lookahead r1 =>
      match rmatch r1 i s (fun _ _ => Some tt) with
      | Some _ => k i s
      | None => None
      end
  end.

(** A match that must start at index [q] of [S]; the end index. *)
Definition exec_at (r : regex) (S : string) (q : nat) : option nat :=
  rmatch r q (Js.drop q S) (fun e _ => Some e).

(** [r.test(s)]: a match starting at some index. *)
Fixpoint search (r : regex) (i : nat) (s : string) : bool :=
  match rmatch r i s (fun _ _ => Some tt) with
  | Some _ => true
  | None =>
      match s with
      | EmptyString => false
      | String _ s' => search r (S i) s'
      end
  end.

Definition test (r : regex) (s : string) : bool := search r 0 s.

(** [S.split(r)] for a pattern without capture groups: [p] is the start of
    the current piece and [q] the index tried next. *)
Fixpoint split_loop (r : regex) (S : string) (fuel p q : nat)
    : list string :=
  match fuel with
  | 0 => []
  | S fuel' =>
      if q <? String.length S then
        match exec_at r S q with
        | None => split_loop r S fuel' p (q + 1)
        | Some e0 =>
            let e := Nat.min e0 (String.length S) in
            if e =? p then split_loop r S fuel' p (q + 1)
            else Js.substring p q S :: split_loop r S fuel' e e
        end
      else [Js.substring p (String.length S) S]
  end.

Definition split (r : regex) (S : string) : list string :=
  match S with
  | EmptyString =>
      match exec_at r S 0 with Some _ => [] | None => [S] end
  | _ => split_loop r S (2 * String.length S + 2) 0 0
  end.

End Regex.

(** ** The statement splitter ([src/unnamed/part_000], [splitQueries]) *)

Definition not_quote (c : ascii) : bool := negb (Ascii.eqb c "'").

(** [/;(?=(?:(?:[^']){2})*[^']*$)/] *)
Definition split_pattern : Regex.regex :=
  Regex.Seq (Regex.Chr ";")
    (Regex.Lookahead
       (Regex.Seq (Regex.Star (Regex.Twice (Regex.Class not_quote)))
          (Regex.Seq (Regex.Star (Regex.Class not_quote)) Regex.Eol))).

Definition splitQueries (sql : string) : list string :=
  if negb (Js.truthy sql) || negb (Js.truthy (Js.trim sql)) then []
  else filter (fun s => 0 < String.length s)
         (map Js.trim (Regex.split split_pattern sql)).

(** ** Failures

    A thrown [Error] is modelled by its message: the handlers only ever read
    [error.message]. *)

Inductive result (A : Type) : Type :=
| Ok (a : A)
| Throw (message : string).
Arguments Ok {A} a.
Arguments Throw {A} message.

#[global] Instance result_bind : MBind result := fun A B f x =>
  match x with
  | Ok a => f a
  | Throw m => Throw m
  end.

#[global] Instance result_ret : MRet result := fun A a => Ok a.

(** ** The identifier guard ([src/server.js], [sanitizeTableName] and
    [sanitizeColumnName]) *)

Definition ident_char (c : ascii) : bool :=
  Js.is_lower c || Js.is_upper c || Js.is_digit c || Ascii.eqb c "_".

(** [/^[a-zA-Z0-9_]+$/] *)
Definition ident_pattern : Regex.regex :=
  Regex.Seq Regex.Bol
    (Regex.Seq (Regex.Plus (Regex.Class ident_char)) Regex.Eol).

Definition sanitizeTableName (tableName : string) : result string :=
  if negb (Regex.test ident_pattern tableName)
  then Throw ("Invalid table name format: " +:+ tableName)
  else Ok tableName.

Definition sanitizeColumnName (columnName : string) : result string :=
  if negb (Regex.test ident_pattern columnName)
  then Throw ("Invalid column name: " +:+ columnName)
  else Ok columnName.

(** [getPrimaryKey] ignores its argument. *)
Definition getPrimaryKey (tableName : string) : string := "ID".

(** ** The statement classifier ([src/server.js], [isExecute] in the
    [/api/query] handler) *)

Definition isExecute (query : string) : bool :=
  let upperQuery := Js.toUpperCase (Js.trim query) in
  Js.startsWith upperQuery "CREATE" ||
  Js.startsWith upperQuery "ALTER" ||
  Js.startsWith upperQuery "DROP" ||
  Js.startsWith upperQuery "INSERT" ||
  Js.startsWith upperQuery "UPDATE" ||
  Js.startsWith upperQuery "DELETE" ||
  Js.startsWith upperQuery "TRUNCATE".

Inductive Tag : Type := MUTATING | QUERY.

Definition classify (statement : string) : Tag :=
  if isExecute statement then MUTATING else QUERY.

(** ** Numbers

    A finite number is kept as an exact decimal [(-1)^neg * m * 10^e] in
    canonical form ([m] has no trailing zero digit; zero is [m = 0, e = 0]).
    Rounding to binary64 is the identity on decimal literals of at most 15
    significant digits in the normal range and is not modelled further,
    except at the two ends of the range (overflow to [Infinity], underflow to
    zero) and for integers, which are rounded to 53 significant bits. *)

Module Num.

Inductive JsNumber : Type :=
| NaN
| Infinity (neg : bool)
| Dec (neg : bool) (m : N) (e : Z).

Fixpoint strip_zeros (fuel : nat) (m : N) (e : Z) : N * Z :=
  match fuel with
  | 0 => (m, e)
  | S fuel' =>
      if (m =? 0)%N then (0%N, 0%Z)
      else if (m mod 10 =? 0)%N then strip_zeros fuel' (m / 10)%N (e + 1)%Z
      else (m, e)
  end.

Definition canon (neg : bool) (m : N) (e : Z) : JsNumber :=
  let '(m', e') := strip_zeros (S (N.size_nat m)) m e in Dec neg m' e'.

(** Largest and smallest magnitudes: [m * 10^e] rounds to an infinity from
    [2^1024 - 2^970] on and to zero up to [2^-1075]. *)
Definition overflows (m : N) (e : Z) : bool :=
  let bound := (2 ^ 1024 - 2 ^ 970)%Z in
  if (0 <=? e)%Z then (bound <=? Z.of_N m * 10 ^ e)%Z
  else (bound * 10 ^ (- e) <=? Z.of_N m)%Z.

Definition underflows (m : N) (e : Z) : bool :=
  if (0 <=? e)%Z then (m =? 0)%N
  else (Z.of_N m * 2 ^ 1075 <=? 10 ^ (- e))%Z.

Definition of_decimal (neg : bool) (m : N) (e : Z) : JsNumber :=
  if overflows m e then Infinity neg
  else if underflows m e then Dec neg 0 0
  else canon neg m e.

(** Round an integer to 53 significant bits, ties to even. *)
Definition round53 (z : Z) : Z :=
  let a := Z.abs z in
  let sh := (Z.log2 a - 52)%Z in
  if (sh <=? 0)%Z then z
  else
    let q := Z.shiftr a sh in
    let r := Z.land a (Z.ones sh) in
    let half := Z.shiftl 1 (sh - 1) in
    let q' := if (half <? r)%Z || ((r =? half)%Z && Z.odd q)
              then (q + 1)%Z else q in
    (Z.sgn z * Z.shiftl q' sh)%Z.

Definition of_Z (z : Z) : JsNumber :=
  let r := round53 z in canon (r <? 0)%Z (Z.abs_N r) 0.

Definition isNaN (x : JsNumber) : bool :=
  match x with NaN => true | _ => false end.

Definition isFinite (x : JsNumber) : bool :=
  match x with Dec _ _ _ => true | _ => false end.

Definition is_integer (x : JsNumber) : bool :=
  match x with Dec _ _ e => (0 <=? e)%Z | _ => false end.

(** *** Scanning numeric literals *)

Definition digit_value (c : ascii) : N := (Js.code c - 48)%N.

Fixpoint span_digits (s : string) : string * string :=
  match s with
  | String c s' =>
      if Js.is_digit c
      then let '(d, r) := span_digits s' in (String c d, r)
      else (EmptyString, s)
  | EmptyString => (EmptyString, EmptyString)
  end.

Fixpoint digits_value (acc : N) (s : string) : N :=
  match s with
  | EmptyString => acc
  | String c s' => digits_value (acc * 10 + digit_value c)%N s'
  end.

Definition sign (s : string) : bool * string :=
  match s with
  | String "-" s' => (true, s')
  | String "+" s' => (false, s')
  | _ => (false, s)
  end.

Definition is_empty (s : string) : bool := negb (Js.truthy s).

(** The exponent part [e][+-]digits; absent or malformed, it is 0. *)
Definition exponent (s : string) : Z :=
  match s with
  | String c r =>
      if Ascii.eqb c "e" || Ascii.eqb c "E" then
        let '(eneg, r1) := sign r in
        let '(ed, _) := span_digits r1 in
        if is_empty ed then 0%Z
        else if eneg then (- Z.of_N (digits_value 0 ed))%Z
             else Z.of_N (digits_value 0 ed)
      else 0%Z
  | EmptyString => 0%Z
  end.

(** [parseFloat(input)]: the longest prefix that is a decimal literal. *)
Definition parseFloat (input : string) : JsNumber :=
  let s := Js.trimStart input in
  let '(neg, s1) := sign s in
  if Js.startsWith s1 "Infinity" then Infinity neg
  else
    let '(ip, s2) := span_digits s1 in
    let '(fp, s3) :=
      match s2 with
      | String "." r => span_digits r
      | _ => (EmptyString, s2)
      end in
    if is_empty ip && is_empty fp then NaN
    else of_decimal neg (digits_value 0 (ip +:+ fp))
           (exponent s3 - Z.of_nat (String.length fp)).

(** [parseInt(input, 10)]: the longest prefix of decimal digits. *)
Definition parseInt10 (input : string) : JsNumber :=
  let s := Js.trimStart input in
  let '(neg, s1) := sign s in
  let '(d, _) := span_digits s1 in
  if is_empty d then NaN
  else
    match of_Z (Z.of_N (digits_value 0 d)) with
    | Dec _ m e => Dec neg m e
    | x => x
    end.

Definition hex_value (c : ascii) : option N :=
  if Js.is_digit c then Some (Js.code c - 48)%N
  else if Js.in_range 97 102 c then Some (Js.code c - 87)%N
  else if Js.in_range 65 70 c then Some (Js.code c - 55)%N
  else None.

(** Value of the longest prefix of hexadecimal digits, if not empty. *)
Fixpoint hex_prefix (acc : option N) (s : string) : option N :=
  match s with
  | String c s' =>
      match hex_value c with
      | Some d => hex_prefix (Some (default 0 acc * 16 + d)%N) s'
      | None => acc
      end
  | EmptyString => acc
  end.

Definition signed (neg : bool) (x : JsNumber) : JsNumber :=
  match x with
  | Dec _ m e => Dec neg m e
  | _ => x
  end.

(** [parseInt(input)] without a radix: decimal, or hexadecimal after a
    [0x] or [0X] prefix. *)
Definition parseInt (input : string) : JsNumber :=
  let s := Js.trimStart input in
  let '(neg, s1) := sign s in
  if Js.startsWith s1 "0x" || Js.startsWith s1 "0X" then
    match hex_prefix None (Js.drop 2 s1) with
    | Some v => signed neg (of_Z (Z.of_N v))
    | None => NaN
    end
  else
    let '(d, _) := span_digits s1 in
    if is_empty d then NaN
    else signed neg (of_Z (Z.of_N (digits_value 0 d))).

(** *** [Number::toString] (radix 10) *)

Definition digits_of (m : N) : string :=
  DecimalString.NilEmpty.string_of_uint (N.to_uint m).

Fixpoint zeros (n : nat) : string :=
  match n with
  | 0 => EmptyString
  | S n' => String "0" (zeros n')
  end.

Definition take (n : nat) (s : string) : string := String.substring 0 n s.

Definition toString (x : JsNumber) : string :=
  match x with
  | NaN => "NaN"
  | Infinity neg => if neg then "-Infinity" else "Infinity"
  | Dec neg m e =>
      if (m =? 0)%N then "0"
      else
        let s := digits_of m in
        let k := Z.of_nat (String.length s) in
        let n := (k + e)%Z in
        let body :=
          if (k <=? n)%Z && (n <=? 21)%Z then
            s +:+ zeros (Z.to_nat (n - k))
          else if (0 <? n)%Z && (n <=? 21)%Z then
            take (Z.to_nat n) s +:+ "." +:+ Js.drop (Z.to_nat n) s
          else if (-6 <? n)%Z && (n <=? 0)%Z then
            "0." +:+ zeros (Z.to_nat (- n)) +:+ s
          else
            let ex := (n - 1)%Z in
            let exs := (if (ex <? 0)%Z then "-" else "+")
                       +:+ digits_of (Z.abs_N ex) in
            if (k =? 1)%Z then s +:+ "e" +:+ exs
            else take 1 s +:+ "." +:+ Js.drop 1 s +:+ "e" +:+ exs in
        if neg then "-" +:+ body else body
  end.

End Num.

(** ** Values and rows

    A row is a JavaScript object: its own properties in enumeration order.
    [VBigInt] is the [bigint] the database client returns for 64-bit
    integers; it never occurs in a parsed JSON body. *)

Inductive Value : Type :=
| VNull
| VBool (b : bool)
| VNum (n : Num.JsNumber)
| VStr (s : string)
| VBigInt (z : Z).

Abbreviation Row := (list (string * Value)).

Fixpoint get (key : string) (row : Row) : option Value :=
  match row with
  | [] => None
  | (k, v) :: row' => if String.eqb k key then Some v else get key row'
  end.

(** [delete obj[key]] *)
Definition delete_key (key : string) (row : Row) : Row :=
  filter (fun kv => negb (String.eqb (fst kv) key) = true) row.

Definition keys (row : Row) : list string := map fst row.

(** ** The type coercer ([src/frontend/src/EditableTable.jsx],
    [safeTypeConvert]); the raw value is a string or [null] *)

Definition safeTypeConvert (value : option string) (columnType : string)
    : Value :=
  match value with
  | None => VNull
  | Some v =>
      if String.eqb v "" || String.eqb (Js.toLowerCase v) "null" then VNull
      else if Js.includes columnType "Boolean" then
        let lowerValue := Js.toLowerCase v in
        if String.eqb lowerValue "true" || String.eqb lowerValue "1" ||
           String.eqb lowerValue "t" || String.eqb lowerValue "yes"
        then VBool true
        else if String.eqb lowerValue "false" || String.eqb lowerValue "0" ||
                String.eqb lowerValue "f" || String.eqb lowerValue "no"
        then VBool false
        else VBool (Js.truthy v)
      else if Js.includes columnType "Int" ||
              Js.includes columnType "Float" ||
              Js.includes columnType "Decimal" then
        let parsedValue := Num.parseFloat v in
        if negb (Num.isNaN parsedValue) && Num.isFinite parsedValue then
          if Js.includes columnType "Int"
          then VNum (Num.parseInt10 (Num.toString parsedValue))
          else VNum parsedValue
        else VNull
      else VStr v
  end.

(** ** The payload of a new row ([src/frontend/src/EditableTable.jsx],
    [handleSaveNewRows])

    The editor keeps its own primary-key name, removes that field and its
    [isNew] mark from the row, and coerces every remaining field that belongs
    to a column. *)

Definition pkName : string := "id".

(** [String(v)] *)
Definition String_of (v : Value) : string :=
  match v with
  | VNull => "null"
  | VBool b => if b then "true" else "false"
  | VNum n => Num.toString n
  | VStr s => s
  | VBigInt z =>
      (if (z <? 0)%Z then "-" else "") +:+ Num.digits_of (Z.abs_N z)
  end.

(** [obj[key] = v] *)
Fixpoint assign (key : string) (v : Value) (obj : Row) : Row :=
  match obj with
  | [] => [(key, v)]
  | (k, old) :: obj' =>
      if String.eqb k key then (k, v) :: obj'
      else (k, old) :: assign key v obj'
  end.

(** A column as the editor holds it: its [field] and its [type]. *)
Definition finalData (columns : list (string * string)) (newRow : Row)
    : Row :=
  let dataToSave := delete_key "isNew" (delete_key pkName newRow) in
  fold_left
    (fun acc col =>
       match get (fst col) dataToSave with
       | Some v =>
           if negb (String.eqb (fst col) pkName)
           then assign (fst col)
                  (safeTypeConvert (Some (String_of v)) (snd col)) acc
           else acc
       | None => acc
       end)
    columns [].

(** ** The database client

    The handlers build a statement text from one of five templates, or pass
    the user's text on, and hand it with its bound parameters to the client's
    raw interface.  [Sql] keeps the template and its identifiers apart so
    that an engine model need not parse the text; [sql_text] is the text the
    source builds. *)

Inductive Sql : Type :=
| SqlText (query : string)
| TableInfo (tableName : string)
| SelectAll (tableName : string)
| InsertReturning (tableName : string) (columns : list string)
| UpdateReturning (tableName columnName pkName : string)
| DeleteWhere (tableName pkName : string).

Fixpoint join (sep : string) (l : list string) : string :=
  match l with
  | [] => ""
  | [x] => x
  | x :: l' => x +:+ sep +:+ join sep l'
  end.

Definition sql_text (q : Sql) : string :=
  match q with
  | SqlText query => query
  | TableInfo t => "PRAGMA table_info(`" +:+ t +:+ "`);"
  | SelectAll t => "SELECT * FROM `" +:+ t +:+ "`;"
  | InsertReturning t columns =>
      "INSERT INTO `" +:+ t +:+ "` (" +:+ join ", " columns +:+ ") VALUES ("
      +:+ join ", " (map (fun _ => "?") columns) +:+ ") RETURNING *;"
  | UpdateReturning t c pk =>
      "UPDATE `" +:+ t +:+ "` SET `" +:+ c +:+ "` = ? WHERE `" +:+ pk
      +:+ "` = ? RETURNING *;"
  | DeleteWhere t pk =>
      "DELETE FROM `" +:+ t +:+ "` WHERE `" +:+ pk +:+ "` = ?;"
  end.

(** [$queryRawUnsafe] answers with rows, [$executeRawUnsafe] with the number
    of affected rows; either may reject the statement. *)
Record Prisma (DB : Type) : Type := {
  queryRawUnsafe : DB -> Sql -> list Value -> DB * result (list Row);
  executeRawUnsafe : DB -> Sql -> list Value -> DB * result Z
}.
Arguments queryRawUnsafe {DB} _ _ _ _.
Arguments executeRawUnsafe {DB} _ _ _ _.

(** ** Responses *)

Record ColumnInfo : Type := {
  field : option Value;
  type : option Value;
  pk : bool
}.

Inductive Body : Type :=
| BError (error : string)
| BRow (row : Row)
| BNone
| BRowCount (rowCount : Z)
| BRows (rows : list Row) (columns : list string)
| BTable (columns : list ColumnInfo) (data : list Row).

Record Response : Type := { status : nat; body : Body }.

Definition is_bigint (v : Value) : bool :=
  match v with VBigInt _ => true | _ => false end.

Definition row_has_bigint (row : Row) : bool :=
  existsb (fun kv => is_bigint (snd kv)) row.

Definition body_has_bigint (b : Body) : bool :=
  match b with
  | BRow row => row_has_bigint row
  | BRows rows _ => existsb row_has_bigint rows
  | BTable _ data => existsb row_has_bigint data
  | _ => false
  end.

(** [JSON.stringify] writes a number that is not finite as [null]. *)
Definition wire_value (v : Value) : Value :=
  match v with
  | VNum (Num.Dec neg m e) => VNum (Num.Dec neg m e)
  | VNum _ => VNull
  | _ => v
  end.

Definition wire_row (row : Row) : Row :=
  map (fun kv => (fst kv, wire_value (snd kv))) row.

Definition wire_body (b : Body) : Body :=
  match b with
  | BRow row => BRow (wire_row row)
  | BRows rows columns => BRows (map wire_row rows) columns
  | BTable columns data => BTable columns (map wire_row data)
  | _ => b
  end.

(** [res.status(status).json(b)]: serialization throws on a [bigint]. *)
Definition json (status : nat) (b : Body) : result Response :=
  if body_has_bigint b then Throw "Do not know how to serialize a BigInt"
  else Ok {| status := status; body := wire_body b |}.

(** ** The request handlers ([src/server.js]) *)

(** [col.pk > 0] on the integer that [table_info] yields. *)
Definition positive_value (v : option Value) : bool :=
  match v with
  | Some (VNum (Num.Dec false m _)) => (0 <? m)%N
  | Some (VBigInt z) => (0 <? z)%Z
  | Some (VBool b) => b
  | _ => false
  end.

(** [(typeof row[key] === 'bigint') ? Number(row[key]) : row[key]] *)
Definition narrow (v : Value) : Value :=
  match v with
  | VBigInt z => VNum (Num.of_Z z)
  | _ => v
  end.

Definition processRow (row : Row) : Row :=
  map (fun kv => (fst kv, narrow (snd kv))) row.

(** [arr[0] || {}] *)
Definition first_or_empty (rows : list Row) : Row :=
  match rows with
  | row :: _ => row
  | [] => []
  end.

(** [a || b] on strings *)
Definition or_else (a b : string) : string :=
  if Js.truthy a then a else b.

Section Handlers.

Context {DB : Type} (prisma : Prisma DB).

(** A [try] block threads the database and may throw; the [catch] turns
    the message into the error response. *)
Definition catch (on_error : string -> Response)
    (r : DB * result Response) : DB * Response :=
  match r with
  | (db, Ok resp) => (db, resp)
  | (db, Throw m) => (db, on_error m)
  end.

Definition failure (status : nat) (m : string) : Response :=
  {| status := status; body := BError m |}.

(** [GET /api/data/:tableName] *)
Definition get_data (tableName : string) (db : DB) : DB * Response :=
  catch (fun m => failure 500 ("Failed to fetch data for table " +:+
                     tableName +:+ ". Error: " +:+ m))
    match sanitizeTableName tableName with
    | Throw m => (db, Throw m)
    | Ok _ =>
        match queryRawUnsafe prisma db (TableInfo tableName) [] with
        | (db1, Throw m) => (db1, Throw m)
        | (db1, Ok columnInfo) =>
            let columns :=
              map (fun col => {| field := get "name" col;
                                 type := get "type" col;
                                 pk := positive_value (get "pk" col) |})
                columnInfo in
            match queryRawUnsafe prisma db1 (SelectAll tableName) [] with
            | (db2, Throw m) => (db2, Throw m)
            | (db2, Ok data) =>
                let processedData := map processRow data in
                (db2, json 200 (BTable columns processedData))
            end
        end
    end.

(** [POST /api/data/:tableName]; [newData] is the parsed body. *)
Definition post_data (tableName0 : string) (body0 : Row) (db : DB)
    : DB * Response :=
  catch (fun m => failure 500 ("Failed to insert row: " +:+ m))
    match sanitizeTableName tableName0 with
    | Throw m => (db, Throw m)
    | Ok tableName =>
        let newData := delete_key (getPrimaryKey tableName) body0 in
        match mapM (fun kv => sanitizeColumnName (fst kv)) newData with
        | Throw m => (db, Throw m)
        | Ok columns =>
            let values := map snd newData in
            match queryRawUnsafe prisma db
                    (InsertReturning tableName columns) values with
            | (db1, Throw m) => (db1, Throw m)
            | (db1, Ok createdRow) =>
                (db1, json 201 (BRow (first_or_empty createdRow)))
            end
        end
    end.

(** [PUT /api/data/:tableName/:id] *)
Definition put_data (tableName0 id0 : string) (updateData : Row) (db : DB)
    : DB * Response :=
  catch (fun m => failure 500 ("Failed to update cell: " +:+ m))
    match sanitizeTableName tableName0 with
    | Throw m => (db, Throw m)
    | Ok tableName =>
        let pkName := getPrimaryKey tableName in
        let id := Num.parseInt id0 in
        match updateData with
        | [] => (db, Throw "undefined is not iterable (cannot read property Symbol(Symbol.iterator))")
        | (key, value) :: _ =>
            match sanitizeColumnName key with
            | Throw m => (db, Throw m)
            | Ok columnName =>
                match queryRawUnsafe prisma db
                        (UpdateReturning tableName columnName pkName)
                        [value; VNum id] with
                | (db1, Throw m) => (db1, Throw m)
                | (db1, Ok updatedRow) =>
                    (db1, json 200 (BRow (first_or_empty updatedRow)))
                end
            end
        end
    end.

(** [DELETE /api/data/:tableName/:id] *)
Definition delete_data (tableName0 id0 : string) (db : DB)
    : DB * Response :=
  catch (fun m => failure 500 ("Failed to delete row: " +:+ m))
    match sanitizeTableName tableName0 with
    | Throw m => (db, Throw m)
    | Ok tableName =>
        let pkName := getPrimaryKey tableName in
        let id := Num.parseInt id0 in
        match executeRawUnsafe prisma db (DeleteWhere tableName pkName)
                [VNum id] with
        | (db1, Throw m) => (db1, Throw m)
        | (db1, Ok _) => (db1, Ok {| status := 204; body := BNone |})
        end
    end.

(** [POST /api/query]; [query] is the [sql] property of the body, absent
    ([None]) or a string. *)
Definition post_query (query0 : option string) (db : DB)
    : DB * Response :=
  match query0 with
  | None => (db, failure 400 "SQL query is required.")
  | Some query =>
      if negb (Js.truthy query)
      then (db, failure 400 "SQL query is required.")
      else
        catch (fun m => failure 400 (or_else m "Failed to execute query."))
          (if isExecute query then
             match executeRawUnsafe prisma db (SqlText query) [] with
             | (db1, Throw m) => (db1, Throw m)
             | (db1, Ok rowCount) => (db1, json 200 (BRowCount rowCount))
             end
           else
             match queryRawUnsafe prisma db (SqlText query) [] with
             | (db1, Throw m) => (db1, Throw m)
             | (db1, Ok rows) =>
                 let columns :=
                   match rows with
                   | row :: _ => keys row
                   | [] => []
                   end in
                 (db1, json 200 (BRows rows columns))
             end)
  end.

End Handlers.

(** ** An engine for the five templates

    The database engine is SQLite behind the client's raw interface.  This
    is a small model of what it does with the statements the handlers build,
    for the cases that are put to it below: a statement whose condition no
    row meets, and examples that show that the hypotheses of a property can
    be met.  A stored value has one of the storage classes NULL, INTEGER,
    REAL and TEXT; tables are found and columns resolved by their declared
    names, without regard to letter case; the primary key of a new row is
    one more than the largest present; [x = NULL] holds for no [x].  [wide]
    tells whether the client returns a stored integer as a [bigint] or as a
    number; the model does not make this depend on the declared type of the
    column.  It leaves out the hidden row identifier and its aliases, type
    affinity, and every constraint other than the uniqueness of the primary
    key of a new row.  What a handler does with any client whatever is
    stated for any client, and not for this one.  Of free statement text
    only [SELECT * FROM t] is interpreted. *)

Module MemDb.

Inductive Cell : Type :=
| CNull
| CInt (z : Z)
| CReal (x : Num.JsNumber)
| CText (s : string).

Abbreviation Stored := (list (string * Cell)).

Record Column : Type := {
  col_name : string;
  col_type : string;
  col_pk : bool
}.

Record Table : Type := {
  tbl_columns : list Column;
  tbl_rows : list Stored
}.

(** Tables by lower-cased name. *)
Abbreviation Db := (gmap string Table).

Definition same_name (a b : string) : bool :=
  String.eqb (Js.toLowerCase a) (Js.toLowerCase b).

(** The declared name of the column that [c] names. *)
Definition resolve (t : Table) (c : string) : option string :=
  col_name <$> find (fun col => same_name (col_name col) c) (tbl_columns t).

(** A bound parameter as a stored value. *)
Definition store (v : Value) : Cell :=
  match v with
  | VNull => CNull
  | VBool b => CInt (if b then 1 else 0)%Z
  | VNum (Num.Dec neg m e) =>
      if (0 <=? e)%Z
      then CInt ((if neg then -1 else 1) * Z.of_N m * 10 ^ e)%Z
      else CReal (Num.Dec neg m e)
  | VNum _ => CNull
  | VStr s => CText s
  | VBigInt z => CInt z
  end.

(** A stored value as the client returns it. *)
Definition load (wide : bool) (c : Cell) : Value :=
  match c with
  | CNull => VNull
  | CInt z => if wide then VBigInt z else VNum (Num.of_Z z)
  | CReal x => VNum x
  | CText s => VStr s
  end.

Definition load_row (wide : bool) (row : Stored) : Row :=
  map (fun kc => (fst kc, load wide (snd kc))) row.

Fixpoint cell (column : string) (row : Stored) : option Cell :=
  match row with
  | [] => None
  | (k, c) :: row' => if String.eqb k column then Some c else cell column row'
  end.

Definition cell_eqb (a b : Cell) : bool :=
  match a, b with
  | CInt x, CInt y => (x =? y)%Z
  | CText x, CText y => String.eqb x y
  | CReal (Num.Dec n1 m1 e1), CReal (Num.Dec n2 m2 e2) =>
      Bool.eqb n1 n2 && (m1 =? m2)%N && (e1 =? e2)%Z
  | _, _ => false
  end.

(** [WHERE column = ?] on one row. *)
Definition hit (column : string) (param : Value) (row : Stored) : bool :=
  match cell column row with
  | Some c => cell_eqb c (store param)
  | None => false
  end.

Fixpoint set (column : string) (c : Cell) (row : Stored) : Stored :=
  match row with
  | [] => []
  | (k, old) :: row' =>
      if String.eqb k column then (k, c) :: row'
      else (k, old) :: set column c row'
  end.

Definition with_rows (t : Table) (rows : list Stored) : Table :=
  {| tbl_columns := tbl_columns t; tbl_rows := rows |}.

Definition pk_column (t : Table) : option string :=
  col_name <$> find col_pk (tbl_columns t).

Definition int_of (c : option Cell) : Z :=
  match c with
  | Some (CInt z) => z
  | _ => 0%Z
  end.

Definition largest (p : string) (rows : list Stored) : Z :=
  foldr (fun row acc => Z.max (int_of (cell p row)) acc) 0%Z rows.

Definition next_id (t : Table) : Z :=
  match pk_column t with
  | Some p => (1 + largest p (tbl_rows t))%Z
  | None => 1%Z
  end.

(** The value of a new row in one column: the one supplied, the generated
    key in the primary-key column, [NULL] elsewhere. *)
Definition new_cell (t : Table) (supplied : Stored) (col : Column)
    : string * Cell :=
  (col_name col,
   match cell (col_name col) supplied with
   | Some CNull | None => if col_pk col then CInt (next_id t) else CNull
   | Some c => c
   end).

Definition new_row (t : Table) (supplied : Stored) : Stored :=
  map (new_cell t supplied) (tbl_columns t).

Definition no_table (t : string) : string := "no such table: " +:+ t.
Definition no_column (c : string) : string := "no such column: " +:+ c.

Definition info_row (wide : bool) (cid : nat) (col : Column) : Row :=
  load_row wide
    [("cid", CInt (Z.of_nat cid)); ("name", CText (col_name col));
     ("type", CText (col_type col)); ("notnull", CInt 0);
     ("dflt_value", CNull);
     ("pk", CInt (if col_pk col then 1 else 0)%Z)].

Definition resolve_all (t : Table) (columns : list string)
    : result (list string) :=
  mapM (fun c => match resolve t c with
                 | Some c' => Ok c'
                 | None => Throw (no_column c)
                 end) columns.

Definition clashes (t : Table) (row : Stored) : bool :=
  match pk_column t with
  | Some p =>
      match cell p row with
      | Some key => existsb (fun old => match cell p old with
                                        | Some c => cell_eqb c key
                                        | None => false
                                        end) (tbl_rows t)
      | None => false
      end
  | None => false
  end.

(** The table of a statement text [SELECT * FROM t]. *)
Definition select_all_from (text : string) : option string :=
  let t := Js.trim text in
  if Js.startsWith (Js.toUpperCase t) "SELECT * FROM " then
    let name := Js.trim (Js.drop 14 t) in
    if Regex.test ident_pattern name then Some name else None
  else None.

Section Engine.

Context (wide : bool).

Definition select_all (db : Db) (name : string)
    : Db * result (list Row) :=
  match db !! Js.toLowerCase name with
  | None => (db, Throw (no_table name))
  | Some t => (db, Ok (map (load_row wide) (tbl_rows t)))
  end.

Definition insert_row (db : Db) (name : string) (t : Table)
    (columns : list string) (params : list Value)
    : Db * result (list Row) :=
  match columns with
  | [] => (db, Throw "near the closing parenthesis: syntax error")
  | _ =>
      match resolve_all t columns with
      | Throw m => (db, Throw m)
      | Ok cols =>
          let row := new_row t (zip cols (map store params)) in
          if clashes t row then (db, Throw "UNIQUE constraint failed")
          else (<[Js.toLowerCase name :=
                    with_rows t (tbl_rows t ++ [row])]> db,
                Ok [load_row wide row])
      end
  end.

Definition update_rows (db : Db) (name : string) (t : Table)
    (c p : string) (v id : Value) : Db * result (list Row) :=
  match resolve t c, resolve t p with
  | None, _ => (db, Throw (no_column c))
  | _, None => (db, Throw (no_column p))
  | Some c', Some p' =>
      let rows' :=
        map (fun row => if hit p' id row then set c' (store v) row
                        else row)
          (tbl_rows t) in
      let updated :=
        map (set c' (store v))
          (filter (fun row => hit p' id row = true) (tbl_rows t)) in
      (<[Js.toLowerCase name := with_rows t rows']> db,
       Ok (map (load_row wide) updated))
  end.

Definition query (db : Db) (q : Sql) (params : list Value)
    : Db * result (list Row) :=
  match q with
  | SqlText text =>
      match select_all_from text with
      | Some name => select_all db name
      | None => (db, Throw "statement text is not interpreted")
      end
  | TableInfo name =>
      match db !! Js.toLowerCase name with
      | None => (db, Ok [])
      | Some t => (db, Ok (imap (info_row wide) (tbl_columns t)))
      end
  | SelectAll name => select_all db name
  | InsertReturning name columns =>
      match db !! Js.toLowerCase name with
      | None => (db, Throw (no_table name))
      | Some t => insert_row db name t columns params
      end
  | UpdateReturning name c p =>
      match db !! Js.toLowerCase name, params with
      | None, _ => (db, Throw (no_table name))
      | Some t, [v; id] => update_rows db name t c p v id
      | Some _, _ => (db, Throw "wrong number of parameters")
      end
  | DeleteWhere _ _ => (db, Throw "statement returns no rows")
  end.

Definition execute (db : Db) (q : Sql) (params : list Value)
    : Db * result Z :=
  match q with
  | DeleteWhere name p =>
      match db !! Js.toLowerCase name, params with
      | None, _ => (db, Throw (no_table name))
      | Some t, [id] =>
          match resolve t p with
          | None => (db, Throw (no_column p))
          | Some p' =>
              let rows' :=
                filter (fun row => hit p' id row = false) (tbl_rows t) in
              (<[Js.toLowerCase name := with_rows t rows']> db,
               Ok (Z.of_nat (length (tbl_rows t) - length rows')))
          end
      | Some _, _ => (db, Throw "wrong number of parameters")
      end
  | _ => (db, Throw "statement is not interpreted")
  end.

Definition engine : Prisma Db :=
  {| queryRawUnsafe := query; executeRawUnsafe := execute |}.

End Engine.

End MemDb.

(** ** The batch executor ([src/unnamed/part_000], [handleExecuteQuery]) *)

(** The parsed JSON of a [/query] response as the component reads it. *)
Record Data : Type := {
  d_error : option string;
  d_rowCount : option Z;
  d_rows : option (list Row);
  d_columns : option (list string)
}.

Definition no_data : Data :=
  {| d_error := None; d_rowCount := None; d_rows := None;
     d_columns := None |}.

Definition data_of_body (b : Body) : Data :=
  match b with
  | BError m =>
      {| d_error := Some m; d_rowCount := None; d_rows := None;
         d_columns := None |}
  | BRowCount n =>
      {| d_error := None; d_rowCount := Some n; d_rows := None;
         d_columns := None |}
  | BRows rows columns =>
      {| d_error := None; d_rowCount := None; d_rows := Some rows;
         d_columns := Some columns |}
  | _ => no_data
  end.

(** What [await fetch(...)] followed by [await response.json()] gives: a
    rejection (the request or the parsing failed), or the [ok] flag of the
    response with its parsed body. *)
Inductive Fetched : Type :=
| Rejected (message : string)
| Responded (ok : bool) (data : Data).

Definition response_ok (r : Response) : bool :=
  (200 <=? status r) && (status r <=? 299).

Definition fetched_of_response (r : Response) : Fetched :=
  Responded (response_ok r) (data_of_body (body r)).

Definition dquote : string := String "034"%char EmptyString.

Definition failure_message (statement message : string) : string :=
  "Query execution failed on statement: " +:+ dquote +:+ statement +:+
  dquote +:+ ". Error: " +:+ message.

Definition isDDL (statement : string) : bool :=
  let sqlUpper := Js.toUpperCase statement in
  Js.startsWith sqlUpper "CREATE" ||
  Js.startsWith sqlUpper "DROP" ||
  Js.startsWith sqlUpper "ALTER".

Inductive Results : Type :=
| ResData (data : list Row) (columns : list string)
| ResSuccess (message : string) (rowCount : Z).

Definition show_nat (n : nat) : string := Num.digits_of (N.of_nat n).

Section BatchExecutor.

(** [W] is everything behind the [/query] endpoint; [fetch_query w s]
    posts the statement [s].  [has_callback] tells whether the component
    was given [onTableAction]. *)
Context {W : Type} (fetch_query : W -> string -> W * Fetched)
        (has_callback : bool).

(** The variables of the loop, the requests sent so far and the number of
    calls of [onTableAction]. *)
Record Loop : Type := {
  world : W;
  sent : list string;
  totalRowCount : Z;
  lastResult : option (string * Data);
  queryFailed : bool;
  errorMessage : option string;
  refreshes : nat
}.

Definition start (w : W) : Loop :=
  {| world := w; sent := []; totalRowCount := 0; lastResult := None;
     queryFailed := false; errorMessage := None; refreshes := 0 |}.

(** The [catch] clause: record the failure and [break]. *)
Definition fail (st : Loop) (w : W) (statement message : string) : Loop :=
  {| world := w;
     sent := sent st ++ [statement];
     totalRowCount := totalRowCount st;
     lastResult := lastResult st;
     queryFailed := true;
     errorMessage := Some (failure_message statement message);
     refreshes := refreshes st |}.

(** The rest of the [try] block after a response that is [ok]. *)
Definition succeed (st : Loop) (w : W) (statement : string) (data : Data)
    : Loop :=
  {| world := w;
     sent := sent st ++ [statement];
     totalRowCount :=
       match d_rowCount data with
       | Some n => (totalRowCount st + n)%Z
       | None => totalRowCount st
       end;
     lastResult := Some (statement, data);
     queryFailed := queryFailed st;
     errorMessage := errorMessage st;
     refreshes :=
       if isDDL statement && has_callback
       then S (refreshes st) else refreshes st |}.

(** [for (const statement of statementsToExecute) { try ... catch ... }] *)
Fixpoint run (statements : list string) (st : Loop) : Loop :=
  match statements with
  | [] => st
  | statement :: rest =>
      match fetch_query (world st) statement with
      | (w, Rejected m) => fail st w statement m
      | (w, Responded false data) =>
          fail st w statement
            (or_else (default "" (d_error data)) "Failed to execute query.")
      | (w, Responded true data) => run rest (succeed st w statement data)
      end
  end.

(** What the component shows afterwards. *)
Record Shown : Type := {
  shown_error : option string;
  shown_results : option Results
}.

Definition summary (statements : list string) (st : Loop)
    : option Results :=
  match queryFailed st, lastResult st with
  | false, Some (statement, data) =>
      match d_rows data with
      | Some rows =>
          Some (ResData rows
                  (match d_columns data with
                   | Some columns => columns
                   | None => keys (first_or_empty rows)
                   end))
      | None =>
          Some (ResSuccess
                  (if isDDL statement
                   then "DDL command(s) executed successfully. Table list refreshing..."
                   else if 1 <? length statements
                        then show_nat (length statements) +:+
                             " queries executed successfully."
                        else "Query executed successfully.")
                  (totalRowCount st))
      end
  | false, None =>
      if 0 <? length statements
      then Some (ResSuccess
                   (show_nat (length statements) +:+
                    " queries executed successfully. Rows affected: " +:+
                    Num.toString (Num.of_Z (totalRowCount st)))
                   (totalRowCount st))
      else None
  | true, _ => None
  end.

Definition handleExecuteQuery (sqlQuery : string) (w : W) : Loop * Shown :=
  let statementsToExecute := splitQueries sqlQuery in
  if length statementsToExecute =? 0
  then (start w, {| shown_error := Some "No valid SQL statements found.";
                    shown_results := None |})
  else
    let st := run statementsToExecute (start w) in
    (st, {| shown_error := errorMessage st;
            shown_results := summary statementsToExecute st |}).

End BatchExecutor.

Arguments world {W} _.
Arguments sent {W} _.
Arguments totalRowCount {W} _.
Arguments lastResult {W} _.
Arguments queryFailed {W} _.
Arguments errorMessage {W} _.
Arguments refreshes {W} _.

(** The component in front of the server: a request is answered by the
    [/api/query] handler. *)
Definition fetch_from_server {DB} (prisma : Prisma DB) (db : DB)
    (statement : string) : DB * Fetched :=
  let '(db', r) := post_query prisma (Some statement) db in
  (db', fetched_of_response r).

(** ** Definitions used to state the properties *)

(** The pieces a split yields when a semicolon is a boundary exactly when no
    quote follows it anywhere in the input; [cur] is the piece read so far. *)
Fixpoint pieces (cur s : string) : list string :=
  match s with
  | EmptyString => [cur]
  | String c s' =>
      if Ascii.eqb c ";" && Js.all_chars not_quote s'
      then cur :: pieces "" s'
      else pieces (cur +:+ String c "") s'
  end.

Definition not_semicolon (c : ascii) : bool := negb (Ascii.eqb c ";").

(** A statement of a well-formed blob without quotes: no semicolon, no
    quote, and something other than white space. *)
Definition plain_statement (s : string) : bool :=
  Js.all_chars not_semicolon s && Js.all_chars not_quote s &&
  negb (Js.all_chars Js.is_white s).

(** The blob of statements, each followed by its semicolon. *)
Fixpoint terminated (statements : list string) : string :=
  match statements with
  | [] => ""
  | s :: rest => s +:+ ";" +:+ terminated rest
  end.

(** Non-empty, and only ASCII letters, digits and underscores. *)
Definition valid_identifier (s : string) : bool :=
  Js.truthy s &&
  Js.all_chars (fun c => Js.is_lower c || Js.is_upper c || Js.is_digit c ||
                         Ascii.eqb c "_") s.

Definition mutating_keywords : list string :=
  ["CREATE"; "ALTER"; "DROP"; "INSERT"; "UPDATE"; "DELETE"; "TRUNCATE"].

(** [s] begins with the letters of [keyword], in either case. *)
Fixpoint starts_with_ignoring_case (s keyword : string) : bool :=
  match keyword, s with
  | EmptyString, _ => true
  | String k keyword', String c s' =>
      Ascii.eqb (Js.upper_char c) (Js.upper_char k) &&
      starts_with_ignoring_case s' keyword'
  | String _ _, EmptyString => false
  end.

(** Truncation toward zero of a finite number. *)
Definition truncate (x : Num.JsNumber) : Num.JsNumber :=
  match x with
  | Num.Dec neg m e =>
      if (0 <=? e)%Z then x
      else Num.canon neg (m / 10 ^ Z.to_N (- e))%N 0
  | _ => x
  end.


(** The stored values of column [column] in table [name]. *)
Definition stored (db : MemDb.Db) (name column : string)
    : list (option MemDb.Cell) :=
  match db !! Js.toLowerCase name with
  | Some t => map (MemDb.cell column) (MemDb.tbl_rows t)
  | None => []
  end.

Definition column (name type : string) (pk : bool) : MemDb.Column :=
  {| MemDb.col_name := name; MemDb.col_type := type; MemDb.col_pk := pk |}.

(** [users (ID INTEGER PRIMARY KEY, name TEXT)] with the rows (1, Ada) and
    (2, Bob). *)
Definition users_table : MemDb.Table :=
  {| MemDb.tbl_columns :=
       [column "ID" "INTEGER" true; column "name" "TEXT" false];
     MemDb.tbl_rows :=
       [ [("ID", MemDb.CInt 1); ("name", MemDb.CText "Ada")];
         [("ID", MemDb.CInt 2); ("name", MemDb.CText "Bob")] ] |}.

Definition users_db : MemDb.Db := {[ "users" := users_table ]}.

(** [notes (body TEXT)] with one row. *)
Definition notes_table : MemDb.Table :=
  {| MemDb.tbl_columns := [column "body" "TEXT" false];
     MemDb.tbl_rows := [ [("body", MemDb.CText "hello")] ] |}.

Definition notes_db : MemDb.Db := {[ "notes" := notes_table ]}.

(** The message of a failed request, if it failed. *)
Definition failure_of (f : Fetched) : option string :=
  match f with
  | Rejected m => Some m
  | Responded false data =>
      Some (or_else (default "" (d_error data)) "Failed to execute query.")
  | Responded true _ => None
  end.

Definition affected_of (f : Fetched) : Z :=
  match f with
  | Responded true data => default 0%Z (d_rowCount data)
  | _ => 0%Z
  end.

(** The answers to the statements, posted one after the other. *)
Fixpoint answers {W} (fetch_query : W -> string -> W * Fetched) (w : W)
    (statements : list string) : list Fetched :=
  match statements with
  | [] => []
  | s :: rest =>
      let '(w', f) := fetch_query w s in f :: answers fetch_query w' rest
  end.

Definition sum_affected (l : list Fetched) : Z :=
  foldr (fun f acc => (affected_of f + acc)%Z) 0%Z l.

(** ** The table list ([App] in [src/unnamed/part_000], [fetchTables])

    The table selected once the list has been fetched again. *)

(** [tableList.includes(t)] *)
Definition includes_table (tableList : list string) (t : string) : bool :=
  existsb (String.eqb t) tableList.

Definition next_selected (selectedTable : string) (tableList : list string)
    : string :=
  if negb (Js.truthy selectedTable) && (0 <? length tableList)
  then default "" (head tableList)
  else if Js.truthy selectedTable &&
          negb (includes_table tableList selectedTable)
       then or_else (default "" (head tableList)) ""
       else selectedTable.

(** ** New rows and pending edits ([src/frontend/src/EditableTable.jsx],
    [handleAddRow], [handleCellEdit], [getDisplayValue]) *)

Definition is_numeric_type (type : string) : bool :=
  Js.includes type "Int" || Js.includes type "Float" ||
  Js.includes type "Decimal".

(** The value a new row starts with in a column of the given type. *)
Definition initial_value (type : string) : Value :=
  if is_numeric_type type then VNull
  else if Js.includes type "Boolean" then VBool false
  else VStr "".

(** The row that [handleAddRow] appends; [tempId] is the temporary id. *)
Definition added_row (columns : list (string * string)) (tempId : string)
    : Row :=
  fold_left
    (fun acc col =>
       if negb (String.eqb (fst col) pkName)
       then assign (fst col) (initial_value (snd col)) acc
       else acc)
    columns [(pkName, VStr tempId); ("isNew", VBool true)].

(** A property read from an object: [None] is [undefined]. *)
Definition String_of_property (v : option Value) : string :=
  match v with
  | Some v => String_of v
  | None => "undefined"
  end.

(** [a === b] *)
Definition strict_eq (a b : option Value) : bool :=
  match a, b with
  | None, None => true
  | Some VNull, Some VNull => true
  | Some (VBool x), Some (VBool y) => Bool.eqb x y
  | Some (VStr x), Some (VStr y) => String.eqb x y
  | Some (VBigInt x), Some (VBigInt y) => (x =? y)%Z
  | Some (VNum (Num.Infinity x)), Some (VNum (Num.Infinity y)) => Bool.eqb x y
  | Some (VNum (Num.Dec n1 m1 e1)), Some (VNum (Num.Dec n2 m2 e2)) =>
      ((m1 =? 0)%N && (m2 =? 0)%N) ||
      (Bool.eqb n1 n2 && (m1 =? m2)%N && (e1 =? e2)%Z)
  | _, _ => false
  end.

(** The edits not yet saved: by row id, then by field. *)
Record Editor : Type := {
  newRows : list Row;
  editCache : gmap string (gmap string Value)
}.

Definition is_temp (id : option Value) : bool :=
  Js.startsWith (String_of_property id) "temp-".

Definition handleCellEdit (id : option Value) (field0 : string)
    (value : Value) (st : Editor) : Editor :=
  if is_temp id then
    {| newRows :=
         map (fun r => if strict_eq (get pkName r) id
                       then assign field0 value r else r)
           (newRows st);
       editCache := editCache st |}
  else
    {| newRows := newRows st;
       editCache :=
         <[String_of_property id :=
             <[field0 := value]>
               (default ∅ (editCache st !! String_of_property id))]>
           (editCache st) |}.


(** [typeof v] *)
Definition typeof (v : option Value) : string :=
  match v with
  | None => "undefined"
  | Some VNull => "object"
  | Some (VBool _) => "boolean"
  | Some (VNum _) => "number"
  | Some (VStr _) => "string"
  | Some (VBigInt _) => "bigint"
  end.

(** Truthiness of a property, [!v] being its negation. *)
Definition truthy_property (v : option Value) : bool :=
  match v with
  | None | Some VNull => false
  | Some (VBool b) => b
  | Some (VNum (Num.Dec _ m _)) => negb (m =? 0)%N
  | Some (VNum Num.NaN) => false
  | Some (VNum (Num.Infinity _)) => true
  | Some (VStr s) => Js.truthy s
  | Some (VBigInt z) => negb (z =? 0)%Z
  end.

(** [handleSaveCell] up to its first [await]: the pending edits afterwards,
    and the body of the update that it goes on to send, if it sends one.
    [columns] and [data] are the columns and the committed rows that the
    component holds. *)
Definition handleSaveCell (columns : list (string * string))
    (data : list Row) (id : option Value) (field0 value : string)
    (st : Editor) : Editor * option Row :=
  if is_temp id then (st, None)
  else
    match find (fun c => String.eqb (fst c) field0) columns with
    | None => (st, None)
    | Some column =>
        let convertedValue := safeTypeConvert (Some value) (snd column) in
        let forgotten :=
          {| newRows := newRows st;
             editCache := delete (String_of_property id) (editCache st) |} in
        match find (fun r => strict_eq (get pkName r) id) data with
        | Some lastCommittedRow =>
            if String.eqb (String_of_property (get field0 lastCommittedRow))
                 (String_of convertedValue) &&
               String.eqb (typeof (Some convertedValue))
                 (typeof (get field0 lastCommittedRow))
            then (forgotten, None)
            else (forgotten, Some [(field0, convertedValue)])
        | None => (forgotten, Some [(field0, convertedValue)])
        end
    end.

(** The [onBlur] handler of a cell ([renderTableCell]); [innerText] is the
    text of the cell. *)
Definition onBlur (columns : list (string * string)) (data : list Row)
    (row : Row) (field0 innerText : string) (st : Editor)
    : Editor * option Row :=
  let id := get pkName row in
  let newValue := Js.trim innerText in
  let st1 := handleCellEdit id field0 (VStr newValue) st in
  if negb (truthy_property (get "isNew" row))
  then handleSaveCell columns data id field0 newValue st1
  else (st1, None).

(** ** More definitions used to state properties *)


Definition white_or_semicolon (c : ascii) : bool :=
  Js.is_white c || Ascii.eqb c ";".

Definition mentions (l : list string) (s : string) : bool :=
  existsb (String.eqb s) l.

(** A transport that answers every statement with one affected row. *)
Definition one_row_each (w : nat) (statement : string) : nat * Fetched :=
  (S w, Responded true
          {| d_error := None; d_rowCount := Some 1%Z; d_rows := None;
             d_columns := None |}).

(** The number that a sequence of decimal digits writes, after [acc]. *)
Fixpoint uint_value (acc : N) (d : Decimal.uint) : N :=
  match d with
  | Decimal.Nil => acc
  | Decimal.D0 l => uint_value (acc * 10 + 0) l
  | Decimal.D1 l => uint_value (acc * 10 + 1) l
  | Decimal.D2 l => uint_value (acc * 10 + 2) l
  | Decimal.D3 l => uint_value (acc * 10 + 3) l
  | Decimal.D4 l => uint_value (acc * 10 + 4) l
  | Decimal.D5 l => uint_value (acc * 10 + 5) l
  | Decimal.D6 l => uint_value (acc * 10 + 6) l
  | Decimal.D7 l => uint_value (acc * 10 + 7) l
  | Decimal.D8 l => uint_value (acc * 10 + 8) l
  | Decimal.D9 l => uint_value (acc * 10 + 9) l
  end%N.

(** ** Observing the client

    [recording prisma] is the client [prisma] with a journal: it hands every
    statement on to [prisma] and notes the text of the statement and its
    bound parameters, in the order of the calls. *)

Abbreviation Call := (string * list Value)%type.

Definition recording {DB} (prisma : Prisma DB) : Prisma (DB * list Call) :=
  {| queryRawUnsafe := fun s q params =>
       let '(db, r) := queryRawUnsafe prisma (fst s) q params in
       ((db, snd s ++ [(sql_text q, params)]), r);
     executeRawUnsafe := fun s q params =>
       let '(db, r) := executeRawUnsafe prisma (fst s) q params in
       ((db, snd s ++ [(sql_text q, params)]), r) |}.

(** The statements a handler sent, read from what it returns. *)
Definition journal {DB} (r : (DB * list Call) * Response) : list Call :=
  snd (fst r).

(** A client that gives one answer to every query, and to every other
    statement the number of its rows. *)
Definition canned (answer : result (list Row)) : Prisma unit :=
  {| queryRawUnsafe := fun db _ _ => (db, answer);
     executeRawUnsafe := fun db _ _ =>
       (db, match answer with
            | Ok rows => Ok (Z.of_nat (length rows))
            | Throw m => Throw m
            end) |}.

(** A transport that plays back a list of answers, one for each request;
    once the list is used up the request is rejected. *)
Definition scripted (w : list Fetched) (statement : string)
    : list Fetched * Fetched :=
  match w with
  | f :: w' => (w', f)
  | [] => ([], Rejected "Failed to fetch")
  end.

Definition affected (n : Z) : Fetched :=
  Responded true
    {| d_error := None; d_rowCount := Some n; d_rows := None;
       d_columns := None |}.

Definition refused (m : string) : Fetched :=
  Responded false
    {| d_error := Some m; d_rowCount := None; d_rows := None;
       d_columns := None |}.


Definition three_statements : list string :=
  ["INSERT INTO t VALUES (1)"; "SELEC 1"; "DELETE FROM t"].

Definition three_answers : list Fetched :=
  [affected 1; refused "near SELEC: syntax error"; affected 1].

(** * Properties *)

(** ** Strings *)

Section StringFacts.

Implicit Types (s t a b : string) (c : ascii) (p : ascii -> bool).

Lemma str_app_cons c a b : String c a +:+ b = String c (a +:+ b).
Proof. reflexivity. Qed.

Lemma str_app_empty_l a : "" +:+ a = a.
Proof. reflexivity. Qed.

Lemma str_app_empty_r a : a +:+ "" = a.
Proof. induction a as [|c a IH]; [done|]. by rewrite str_app_cons, IH. Qed.

Lemma str_app_assoc a b t : (a +:+ b) +:+ t = a +:+ b +:+ t.
Proof. induction a as [|c a IH]; [done|]. by rewrite !str_app_cons, IH. Qed.

Lemma str_length_app a b :
  String.length (a +:+ b) = String.length a + String.length b.
Proof. induction a as [|c a IH]; [done|]. rewrite str_app_cons. simpl. lia. Qed.

Lemma all_chars_app p a b :
  Js.all_chars p (a +:+ b) = Js.all_chars p a && Js.all_chars p b.
Proof.
  induction a as [|c a IH]; [done|].
  rewrite str_app_cons. simpl. rewrite IH. by destruct (p c).
Qed.

Lemma str_drop_app a b : Js.drop (String.length a) (a +:+ b) = b.
Proof. induction a as [|c a IH]; [by destruct b|]. by rewrite str_app_cons. Qed.

Lemma substring_prefix a b : String.substring 0 (String.length a) (a +:+ b) = a.
Proof.
  induction a as [|c a IH]; [by destruct b|].
  rewrite str_app_cons. simpl. by rewrite IH.
Qed.

Lemma substring_skip a b n :
  String.substring (String.length a) n (a +:+ b) = String.substring 0 n b.
Proof. induction a as [|c a IH]; [done|]. by rewrite str_app_cons. Qed.

Lemma substring_middle a b t :
  Js.substring (String.length a) (String.length a + String.length b)
    (a +:+ b +:+ t) = b.
Proof.
  unfold Js.substring. rewrite substring_skip.
  replace (String.length a + String.length b - String.length a)
    with (String.length b) by lia.
  apply substring_prefix.
Qed.

Lemma trimStart_empty s :
  Js.trimStart s = "" <-> Js.all_chars Js.is_white s = true.
Proof.
  induction s as [|c s IH]; [done|]. simpl.
  destruct (Js.is_white c); [done|]. split; discriminate.
Qed.

Lemma trimStart_keeps_black s :
  Js.all_chars Js.is_white s = false ->
  Js.all_chars Js.is_white (Js.trimStart s) = false.
Proof.
  induction s as [|c s IH]; [done|]. simpl.
  destruct (Js.is_white c) eqn:Hc; [done|]. simpl. by rewrite Hc.
Qed.

Lemma trimEnd_empty s :
  Js.trimEnd s = "" <-> Js.all_chars Js.is_white s = true.
Proof.
  induction s as [|c s IH]; [done|]. simpl.
  destruct (Js.trimEnd s) eqn:Ht.
  - destruct (Js.is_white c); simpl; [tauto|]. split; discriminate.
  - split; [discriminate|]. intros [_ H]%andb_true_iff.
    apply IH in H. discriminate.
Qed.

Lemma trim_empty s : Js.trim s = "" <-> Js.all_chars Js.is_white s = true.
Proof.
  unfold Js.trim. rewrite trimEnd_empty. split.
  - intros H. destruct (Js.all_chars Js.is_white s) eqn:E; [done|].
    apply trimStart_keeps_black in E. congruence.
  - intros H. apply trimStart_empty in H. by rewrite H.
Qed.

Lemma truthy_trim s :
  Js.truthy (Js.trim s) = negb (Js.all_chars Js.is_white s).
Proof.
  destruct (Js.all_chars Js.is_white s) eqn:E.
  - apply trim_empty in E. by rewrite E.
  - destruct (Js.trim s) eqn:T; [|done].
    apply trim_empty in T. congruence.
Qed.

Lemma truthy_length s : bool_decide (0 < String.length s) = Js.truthy s.
Proof. destruct s; [done|]. apply bool_decide_eq_true. simpl. lia. Qed.

End StringFacts.

(** ** The matcher on the two patterns *)

Section MatcherFacts.

Context {A : Type}.
Implicit Types (k : Regex.Cont A) (p : ascii -> bool).

Lemma option_id (o : option A) :
  match o with Some a => Some a | None => None end = o.
Proof. by destruct o. Qed.

(** [p*$]: the rest of the input is in the class [p] throughout. *)
Lemma star_class_eol p k fuel : forall s i,
  String.length s <= fuel ->
  Regex.star_loop (Regex.rmatch (Regex.Class p)) fuel i s
    (fun i' s' => Regex.rmatch Regex.Eol i' s' k)
  = if Js.all_chars p s then k (i + String.length s) "" else None.
Proof.
  induction fuel as [|fuel IH]; intros s i Hlen.
  - destruct s; simpl in *; [|lia]. by rewrite Nat.add_0_r.
  - destruct s as [|c s]; simpl.
    { by rewrite Nat.add_0_r. }
    destruct (p c); simpl; [|done].
    replace (String.length s <? S (String.length s)) with true
      by (symmetry; apply Nat.ltb_lt; lia).
    rewrite IH by (simpl in Hlen; lia).
    replace (S i + String.length s) with (i + S (String.length s)) by lia.
    apply option_id.
Qed.

Lemma match_class_star_eol p k s i :
  Regex.rmatch (Regex.Seq (Regex.Star (Regex.Class p)) Regex.Eol) i s k
  = if Js.all_chars p s then k (i + String.length s) "" else None.
Proof. simpl. by apply star_class_eol. Qed.

(** [(pp)*] in front of a continuation that only accepts input in [p]. *)
Lemma star_pairs_reject p k fuel : forall s i,
  (forall i' s', Js.all_chars p s' = false -> k i' s' = None) ->
  Js.all_chars p s = false ->
  Regex.star_loop (Regex.rmatch (Regex.Twice (Regex.Class p))) fuel i s k
  = None.
Proof.
  induction fuel as [|fuel IH]; intros s i Hk Hs; simpl; [by apply Hk|].
  rewrite (Hk i s Hs).
  destruct s as [|c1 [|c2 s]]; simpl in *; try done.
  - by destruct (p c1).
  - destruct (p c1); [|done]. destruct (p c2); [|done]. simpl in Hs.
    replace (String.length s <? S (S (String.length s))) with true
      by (symmetry; apply Nat.ltb_lt; lia).
    by rewrite IH.
Qed.

Lemma star_pairs_accept p k (K : nat -> option A) fuel : forall s i,
  (forall i' s', Js.all_chars p s' = true ->
                 k i' s' = K (i' + String.length s')) ->
  Js.all_chars p s = true ->
  Regex.star_loop (Regex.rmatch (Regex.Twice (Regex.Class p))) fuel i s k
  = K (i + String.length s).
Proof.
  induction fuel as [|fuel IH]; intros s i Hk Hs; simpl; [by apply Hk|].
  rewrite (Hk i s Hs).
  destruct s as [|c1 [|c2 s]]; simpl in *; try done.
  - by destruct (p c1).
  - destruct (p c1); [|done]. destruct (p c2); [|done]. simpl in Hs.
    replace (String.length s <? S (S (String.length s))) with true
      by (symmetry; apply Nat.ltb_lt; lia).
    rewrite IH by done.
    replace (S (S i) + String.length s)
      with (i + S (S (String.length s))) by lia.
    by destruct (K _).
Qed.

End MatcherFacts.

(** The lookahead of the split pattern holds exactly when no quote follows. *)
Lemma split_lookahead s i :
  Regex.rmatch
    (Regex.Seq (Regex.Star (Regex.Twice (Regex.Class not_quote)))
       (Regex.Seq (Regex.Star (Regex.Class not_quote)) Regex.Eol))
    i s (fun _ _ => Some tt)
  = if Js.all_chars not_quote s then Some tt else None.
Proof.
  cbn [Regex.rmatch].
  destruct (Js.all_chars not_quote s) eqn:Hs.
  - rewrite (star_pairs_accept not_quote _ (fun _ => Some tt)); [done| |done].
    intros i' s' Hs'.
    change (Regex.star_loop _ _ i' s' _) with
      (Regex.rmatch (Regex.Seq (Regex.Star (Regex.Class not_quote)) Regex.Eol)
         i' s' (fun _ _ => Some tt)).
    by rewrite match_class_star_eol, Hs'.
  - apply star_pairs_reject; [|done].
    intros i' s' Hs'.
    change (Regex.star_loop _ _ i' s' _) with
      (Regex.rmatch (Regex.Seq (Regex.Star (Regex.Class not_quote)) Regex.Eol)
         i' s' (fun _ _ => Some tt)).
    by rewrite match_class_star_eol, Hs'.
Qed.

(** The split pattern at one position. *)
Lemma split_pattern_match {A} (k : Regex.Cont A) s i :
  Regex.rmatch split_pattern i s k =
  match s with
  | String c s' =>
      if Ascii.eqb c ";" && Js.all_chars not_quote s' then k (S i) s'
      else None
  | EmptyString => None
  end.
Proof.
  destruct s as [|c s]; [done|].
  unfold split_pattern, Regex.Chr.
  cbn [Regex.rmatch]. rewrite Ascii.eqb_sym.
  destruct (Ascii.eqb c ";"); [|done].
  pose proof (split_lookahead s (S i)) as H. cbn [Regex.rmatch] in H.
  rewrite H. by destruct (Js.all_chars not_quote s).
Qed.

(** ** The splitter *)

Lemma exec_at_split a c b :
  Regex.exec_at split_pattern (a +:+ String c b) (String.length a) =
  if Ascii.eqb c ";" && Js.all_chars not_quote b
  then Some (S (String.length a)) else None.
Proof.
  unfold Regex.exec_at. by rewrite str_drop_app, split_pattern_match.
Qed.

Lemma split_loop_pieces : forall rest pre cur fuel,
  String.length rest < fuel ->
  Regex.split_loop split_pattern (pre +:+ cur +:+ rest) fuel
    (String.length pre) (String.length pre + String.length cur)
  = pieces cur rest.
Proof.
  induction rest as [|c rest IH]; intros pre cur fuel Hfuel;
    (destruct fuel as [|fuel]; [simpl in Hfuel; lia|]); simpl.
  - rewrite str_app_empty_r, str_length_app.
    rewrite (proj2 (Nat.ltb_ge _ _)) by lia.
    f_equal. rewrite <- (str_app_empty_r cur) at 2. apply substring_middle.
  - rewrite !str_length_app. simpl.
    rewrite (proj2 (Nat.ltb_lt _ _)) by lia.
    rewrite <- str_app_assoc, <- str_length_app, exec_at_split.
    rewrite str_length_app, str_app_assoc.
    simpl in Hfuel.
    destruct (Ascii.eqb c ";" && Js.all_chars not_quote rest) eqn:Hc.
    + rewrite Nat.min_l by (simpl; lia).
      rewrite (proj2 (Nat.eqb_neq _ _)) by lia.
      rewrite substring_middle. f_equal.
      specialize (IH (pre +:+ cur +:+ String c "") "" fuel).
      rewrite !str_app_assoc in IH. rewrite str_app_cons in IH.
      rewrite !str_length_app in IH. simpl in IH.
      rewrite Nat.add_0_r in IH.
      replace (String.length pre + (String.length cur + 1))
        with (S (String.length pre + String.length cur)) in IH by lia.
      apply IH. lia.
    + specialize (IH pre (cur +:+ String c "") fuel).
      rewrite !str_app_assoc in IH. rewrite str_app_cons in IH.
      rewrite str_length_app in IH. simpl in IH.
      replace (String.length pre + (String.length cur + 1))
        with (String.length pre + String.length cur + 1) in IH by lia.
      apply IH. lia.
Qed.

(** The split of the source is the split at each semicolon that no quote
    follows. *)
Lemma split_is_pieces sql : Regex.split split_pattern sql = pieces "" sql.
Proof.
  destruct sql as [|c sql]; [done|].
  unfold Regex.split.
  apply (split_loop_pieces (String c sql) "" ""). simpl. lia.
Qed.

Lemma pieces_before_quote a : forall cur b,
  Js.all_chars not_quote b = false ->
  pieces cur (a +:+ b) = pieces (cur +:+ a) b.
Proof.
  induction a as [|c a IH]; intros cur b Hb.
  - by rewrite str_app_empty_r.
  - rewrite str_app_cons. simpl.
    rewrite all_chars_app, Hb, andb_false_r, andb_false_r.
    rewrite IH by done. by rewrite str_app_assoc.
Qed.

Lemma pieces_no_semicolon a : forall cur b,
  Js.all_chars not_semicolon a = true ->
  pieces cur (a +:+ b) = pieces (cur +:+ a) b.
Proof.
  induction a as [|c a IH]; intros cur b Ha.
  - by rewrite str_app_empty_r.
  - rewrite str_app_cons. simpl in *.
    apply andb_true_iff in Ha as [Hc Ha]. unfold not_semicolon in Hc.
    destruct (Ascii.eqb c ";"); [done|]. simpl.
    rewrite IH by done. by rewrite str_app_assoc.
Qed.

Lemma splitQueries_unfold sql :
  splitQueries sql =
  if Js.all_chars Js.is_white sql then []
  else filter (fun s => 0 < String.length s) (map Js.trim (pieces "" sql)).
Proof.
  unfold splitQueries. rewrite split_is_pieces, truthy_trim, negb_involutive.
  destruct sql; [done|]. simpl.
  by destruct (Js.all_chars Js.is_white _).
Qed.

Lemma filter_trimmed (l : list string) :
  filter (fun s => 0 < String.length s) (map Js.trim l) =
  map Js.trim (filter (fun s => Js.all_chars Js.is_white s = false) l).
Proof.
  induction l as [|s l IH]; [done|]. simpl.
  rewrite !filter_cons, IH.
  pose proof (truthy_trim s) as Ht.
  destruct (Js.all_chars Js.is_white s) eqn:E.
  - rewrite decide_False; [by rewrite decide_False|].
    destruct (Js.trim s); simpl in *; [lia|done].
  - rewrite decide_True; [by rewrite decide_True|].
    destruct (Js.trim s); simpl in *; [done|lia].
Qed.

Lemma terminated_no_quote (statements : list string) :
  forallb plain_statement statements = true ->
  Js.all_chars not_quote (terminated statements) = true.
Proof.
  induction statements as [|s l IH]; [done|]. simpl.
  intros [Hs Hl]%andb_true_iff.
  unfold plain_statement in Hs.
  apply andb_true_iff in Hs as [[_ Hq]%andb_true_iff _].
  rewrite all_chars_app, Hq. simpl. exact (IH Hl).
Qed.

Lemma pieces_terminated (statements : list string) :
  forallb plain_statement statements = true ->
  pieces "" (terminated statements) = statements ++ [""].
Proof.
  induction statements as [|s l IH]; [done|]. simpl.
  intros [Hs Hl]%andb_true_iff.
  pose proof (terminated_no_quote l Hl) as Hq.
  unfold plain_statement in Hs.
  apply andb_true_iff in Hs as [[Hsemi _]%andb_true_iff _].
  rewrite pieces_no_semicolon by done.
  rewrite str_app_cons. simpl. rewrite !str_app_empty_l, Hq. f_equal. by apply IH.
Qed.

(** Without any quote in the blob the splitter does return the statements,
    trimmed and in order. *)
Lemma splitQueries_plain (statements : list string) :
  forallb plain_statement statements = true ->
  splitQueries (terminated statements) = map Js.trim statements.
Proof.
  intros Hall. rewrite splitQueries_unfold, pieces_terminated by done.
  assert (filter (fun s => Js.all_chars Js.is_white s = false)
            (statements ++ [""]) = statements) as Hf.
  { rewrite filter_app, filter_cons, decide_False by done.
    rewrite filter_nil, app_nil_r.
    clear -Hall. induction statements as [|s l IH]; [done|].
    simpl in Hall. apply andb_true_iff in Hall as [Hs Hl].
    rewrite filter_cons, decide_True, IH; [done|done|].
    unfold plain_statement in Hs.
    apply andb_true_iff in Hs as [_ Hw]. by apply negb_true_iff in Hw. }
  rewrite filter_trimmed, Hf.
  destruct statements as [|s l]; [done|].
  simpl. rewrite all_chars_app.
  simpl in Hall. apply andb_true_iff in Hall as [Hs _].
  unfold plain_statement in Hs. apply andb_true_iff in Hs as [_ Hw].
  apply negb_true_iff in Hw. by rewrite Hw.
Qed.

(** Every semicolon in front of the last quote of the blob is kept inside
    its piece. *)
Lemma splitQueries_through_quote (a post : string) :
  Js.all_chars not_semicolon post = true ->
  splitQueries (a +:+ "'" +:+ post +:+ ";") = [Js.trim (a +:+ "'" +:+ post)].
Proof.
  intros Hpost. rewrite splitQueries_unfold.
  rewrite all_chars_app. rewrite (str_app_cons "'"). simpl.
  rewrite andb_false_r.
  rewrite pieces_before_quote by done.
  rewrite str_app_cons. simpl. rewrite !str_app_empty_l.
  rewrite (pieces_no_semicolon post) by done.
  change (pieces ?cur ";") with [cur; ""].
  rewrite filter_trimmed, !str_app_assoc.
  rewrite filter_cons, decide_True.
  - by rewrite filter_cons, decide_False.
  - rewrite all_chars_app, str_app_cons. simpl. by rewrite andb_false_r.
Qed.

(** C8: a semicolon inside a single-quoted literal is not a statement
    boundary.  A blob made of one statement, whose only semicolons are
    inside its literal [lit] and the terminator at its end, is split into
    exactly one statement: the trimmed text without the terminator. *)
Theorem C8_semicolon_in_literal_does_not_split (pre lit post : string) :
  Js.all_chars not_semicolon pre = true ->
  Js.all_chars not_semicolon post = true ->
  splitQueries (pre +:+ "'" +:+ lit +:+ "'" +:+ post +:+ ";") =
  [Js.trim (pre +:+ "'" +:+ lit +:+ "'" +:+ post)].
Proof.
  intros _ Hpost.
  pose proof (splitQueries_through_quote (pre +:+ "'" +:+ lit) post Hpost) as H.
  by rewrite !str_app_assoc in H.
Qed.

(** The blob of the specification is split into exactly one statement. *)
Lemma C8_witness :
  splitQueries "INSERT INTO t (s) VALUES ('a;b');" =
  ["INSERT INTO t (s) VALUES ('a;b')"].
Proof.
  exact (C8_semicolon_in_literal_does_not_split
           "INSERT INTO t (s) VALUES (" "a;b" ")" eq_refl eq_refl).
Defined.

(** C1, at a blob of two terminated statements whose only quotes are in the
    second: the splitter returns one statement, not two; the semicolon
    between them is followed by a quote and is not taken as a boundary. *)
Theorem C1_boundary_before_a_literal_is_missed :
  Js.all_chars not_semicolon "SELECT 1" = true /\
  Js.all_chars not_semicolon " SELECT 'a'" = true /\
  splitQueries (terminated ["SELECT 1"; " SELECT 'a'"]) =
  ["SELECT 1; SELECT 'a'"].
Proof. by vm_compute. Qed.

(** ** The identifier guard *)

Lemma search_after_start (r : Regex.regex) : forall s i,
  Regex.search (Regex.Seq Regex.Bol r) (S i) s = false.
Proof. induction s as [|c s IH]; intros i; simpl; [done|]. apply IH. Qed.

Lemma match_class_plus_eol {A} (p : ascii -> bool) (k : Regex.Cont A) s i :
  Regex.rmatch (Regex.Seq (Regex.Plus (Regex.Class p)) Regex.Eol) i s k =
  match s with
  | String c s' =>
      if p c && Js.all_chars p s' then k (S i + String.length s') "" else None
  | EmptyString => None
  end.
Proof.
  destruct s as [|c s]; [done|].
  change (Regex.rmatch _ i (String c s) k) with
    (if p c
     then Regex.rmatch (Regex.Seq (Regex.Star (Regex.Class p)) Regex.Eol)
            (S i) s k
     else None).
  rewrite match_class_star_eol. by destruct (p c).
Qed.

Lemma test_ident_pattern (s : string) :
  Regex.test ident_pattern s = valid_identifier s.
Proof.
  change (valid_identifier s) with (Js.truthy s && Js.all_chars ident_char s).
  unfold Regex.test, ident_pattern.
  destruct s as [|c s]; [done|].
  cbn [Regex.search].
  change (Regex.rmatch (Regex.Seq Regex.Bol ?r) 0 ?t ?k)
    with (Regex.rmatch r 0 t k).
  rewrite match_class_plus_eol.
  cbn [Js.truthy Js.all_chars andb].
  destruct (ident_char c && Js.all_chars ident_char s); [done|].
  apply search_after_start.
Qed.

(** C2: a table or column name passes the guard exactly when it is not
    empty and made of ASCII letters, digits and underscores only; any other
    name is rejected with the guard's error.  [users] passes;
    [users; DROP TABLE x] and [user name] are rejected. *)
Theorem C2_identifier_guard :
  (forall name : string,
     sanitizeTableName name =
       (if valid_identifier name then Ok name
        else Throw ("Invalid table name format: " +:+ name)) /\
     sanitizeColumnName name =
       (if valid_identifier name then Ok name
        else Throw ("Invalid column name: " +:+ name))) /\
  sanitizeTableName "users" = Ok "users" /\
  sanitizeTableName "users; DROP TABLE x" =
    Throw "Invalid table name format: users; DROP TABLE x" /\
  sanitizeTableName "user name" =
    Throw "Invalid table name format: user name" /\
  sanitizeColumnName "users; DROP TABLE x" =
    Throw "Invalid column name: users; DROP TABLE x" /\
  sanitizeColumnName "user name" = Throw "Invalid column name: user name".
Proof.
  split; [|by vm_compute].
  intros name. unfold sanitizeTableName, sanitizeColumnName.
  rewrite test_ident_pattern. by destruct (valid_identifier name).
Qed.

(** ** The classifier *)

Lemma upper_char_idem (c : ascii) :
  Js.upper_char (Js.upper_char c) = Js.upper_char c.
Proof. by destruct c as [[] [] [] [] [] [] [] []]. Qed.

Lemma startsWith_upper : forall keyword s,
  Js.startsWith (Js.toUpperCase s) (Js.toUpperCase keyword) =
  starts_with_ignoring_case s keyword.
Proof.
  induction keyword as [|k keyword IH]; intros s; [by destruct s|].
  destruct s as [|c s]; [done|]. simpl.
  by rewrite IH.
Qed.

Lemma isExecute_keywords (query : string) :
  isExecute query =
  existsb (starts_with_ignoring_case (Js.trim query)) mutating_keywords.
Proof.
  unfold isExecute, mutating_keywords. cbn [existsb].
  rewrite <- !startsWith_upper, orb_false_r, !orb_assoc. reflexivity.
Qed.

(** C7: a statement is tagged MUTATING exactly when its trimmed text begins,
    letter case ignored, with CREATE, ALTER, DROP, INSERT, UPDATE, DELETE or
    TRUNCATE; every other statement is tagged QUERY. *)
Theorem C7_classifier :
  (forall statement : string,
     classify statement =
       if existsb (starts_with_ignoring_case (Js.trim statement))
            mutating_keywords
       then MUTATING else QUERY) /\
  classify "select * from x" = QUERY /\
  classify "Insert into x values (1)" = MUTATING.
Proof.
  split; [|by vm_compute].
  intros statement. unfold classify. by rewrite isExecute_keywords.
Qed.

(** ** The type coercer *)

(** The first rule: [null], the empty string and any spelling of [null]
    give [null] whatever the declared type. *)
Lemma safeTypeConvert_null (columnType : string) :
  safeTypeConvert None columnType = VNull /\
  safeTypeConvert (Some "") columnType = VNull /\
  forall v, Js.toLowerCase v = "null" ->
            safeTypeConvert (Some v) columnType = VNull.
Proof.
  repeat split; try done.
  intros v Hv. unfold safeTypeConvert. rewrite Hv. simpl.
  by rewrite orb_true_r.
Qed.

Lemma safeTypeConvert_examples :
  safeTypeConvert (Some "true") "Boolean" = VBool true /\
  safeTypeConvert (Some "0") "Int" = VNum (Num.of_Z 0) /\
  safeTypeConvert (Some "") "String" = VNull /\
  safeTypeConvert (Some "abc") "Float" = VNull /\
  safeTypeConvert (Some "Infinity") "Float" = VNull /\
  safeTypeConvert (Some "1e999") "Decimal" = VNull /\
  safeTypeConvert (Some "12.75") "Int" = VNum (Num.of_Z 12) /\
  safeTypeConvert (Some "-12.75") "Float" = VNum (Num.Dec true 1275 (-2)).
Proof. by vm_compute. Qed.

(** C6, at the raw value [0.0000005] for a column of type [Int]: the value
    parses to the finite number 5e-7, whose truncation is 0; the coercer
    returns 5, because [parseInt] reads the number through its string form
    [5e-7].  Likewise [1e21] gives 1. *)
Theorem C6_integer_narrowing_reads_exponent_form :
  Num.parseFloat "0.0000005" = Num.Dec false 5 (-7) /\
  truncate (Num.parseFloat "0.0000005") = Num.of_Z 0 /\
  Num.toString (Num.parseFloat "0.0000005") = "5e-7" /\
  safeTypeConvert (Some "0.0000005") "Int" = VNum (Num.of_Z 5) /\
  truncate (Num.parseFloat "1e21") = Num.Dec false 1 21 /\
  safeTypeConvert (Some "1e21") "Int" = VNum (Num.of_Z 1).
Proof. by vm_compute. Qed.

(** ** Narrowing of wide integers *)

Lemma narrow_not_bigint (v : Value) : is_bigint (narrow v) = false.
Proof. by destruct v. Qed.

Lemma processRow_no_bigint (row : Row) :
  row_has_bigint (processRow row) = false.
Proof.
  induction row as [|[k v] row IH]; [done|].
  simpl. by rewrite narrow_not_bigint.
Qed.

Lemma processed_no_bigint (data : list Row) :
  existsb row_has_bigint (map processRow data) = false.
Proof.
  induction data as [|row data IH]; [done|].
  simpl. by rewrite processRow_no_bigint.
Qed.

(** The table fetch narrows every [bigint] and so always serializes. *)
Lemma get_data_narrows {DB} (prisma : Prisma DB) tableName db db1 db2 info data :
  sanitizeTableName tableName = Ok tableName ->
  queryRawUnsafe prisma db (TableInfo tableName) [] = (db1, Ok info) ->
  queryRawUnsafe prisma db1 (SelectAll tableName) [] = (db2, Ok data) ->
  exists columns,
    get_data prisma tableName db =
    (db2, {| status := 200;
             body := BTable columns (map wire_row (map processRow data)) |}).
Proof.
  intros Ht Hinfo Hdata. unfold get_data. rewrite Ht, Hinfo, Hdata.
  unfold json. cbn [body_has_bigint]. rewrite processed_no_bigint.
  by eexists.
Qed.

(** C9, for any client: when the client answers a query sent through the
    ad-hoc path with rows of which one holds a [bigint], the handler hands
    them to the serializer as they are and answers with the serializer's
    error and status 400 instead of the rows.  Narrowed as the table fetch
    narrows its rows, the same rows would have been serialized. *)
Theorem C9_query_rows_are_not_narrowed {DB} (prisma : Prisma DB)
    (db db1 : DB) (query : string) (rows : list Row) :
  Js.truthy query = true ->
  isExecute query = false ->
  queryRawUnsafe prisma db (SqlText query) [] = (db1, Ok rows) ->
  existsb row_has_bigint rows = true ->
  post_query prisma (Some query) db =
    (db1, {| status := 400;
             body := BError "Do not know how to serialize a BigInt" |}) /\
  json 200 (BRows (map processRow rows) (keys (first_or_empty rows))) =
    Ok {| status := 200;
          body := BRows (map wire_row (map processRow rows))
                    (keys (first_or_empty rows)) |}.
Proof.
  intros Hq Hx Hrows Hbig. split.
  - unfold post_query. rewrite Hq, Hx, Hrows. cbn [negb].
    unfold json. cbn [body_has_bigint]. by rewrite Hbig.
  - unfold json. cbn [body_has_bigint]. by rewrite processed_no_bigint.
Qed.

(** The row of a table [big (ID INTEGER PRIMARY KEY, n BIGINT)] as a client
    returns it that reads a column declared [BIGINT] as a [bigint]. *)
Lemma C9_witness :
  post_query
    (canned (Ok [ [("ID", VNum (Num.of_Z 1));
                   ("n", VBigInt 9007199254740993)] ]))
    (Some "SELECT * FROM big") tt =
    (tt, {| status := 400;
            body := BError "Do not know how to serialize a BigInt" |}) /\
  json 200
    (BRows
       (map processRow
          [ [("ID", VNum (Num.of_Z 1)); ("n", VBigInt 9007199254740993)] ])
       (keys (first_or_empty
                [ [("ID", VNum (Num.of_Z 1));
                   ("n", VBigInt 9007199254740993)] ]))) =
    Ok {| status := 200;
          body := BRows
            (map wire_row
               (map processRow
                  [ [("ID", VNum (Num.of_Z 1));
                     ("n", VBigInt 9007199254740993)] ]))
            (keys (first_or_empty
                     [ [("ID", VNum (Num.of_Z 1));
                        ("n", VBigInt 9007199254740993)] ])) |}.
Proof.
  exact (C9_query_rows_are_not_narrowed
           (canned (Ok [ [("ID", VNum (Num.of_Z 1));
                          ("n", VBigInt 9007199254740993)] ]))
           tt tt "SELECT * FROM big"
           [ [("ID", VNum (Num.of_Z 1)); ("n", VBigInt 9007199254740993)] ]
           eq_refl eq_refl eq_refl eq_refl).
Defined.

(** ** The batch executor *)

Lemma startsWith_refl (s t : string) : Js.startsWith (s +:+ t) s = true.
Proof.
  induction s as [|c s IH]; [by destruct t|].
  rewrite str_app_cons. simpl. by rewrite Ascii.eqb_refl, IH.
Qed.

Lemma includes_unfold (s t : string) :
  Js.includes s t =
    Js.startsWith s t ||
    match s with
    | EmptyString => false
    | String _ s' => Js.includes s' t
    end.
Proof. by destruct s. Qed.

Lemma includes_here (s t : string) : Js.includes (s +:+ t) s = true.
Proof. by rewrite includes_unfold, startsWith_refl. Qed.

Lemma includes_later (a s t : string) :
  Js.includes s t = true -> Js.includes (a +:+ s) t = true.
Proof.
  induction a as [|c a IH]; intros H; [done|].
  rewrite str_app_cons. cbn [Js.includes]. rewrite (IH H).
  apply orb_true_r.
Qed.

Lemma includes_statement (s message : string) :
  Js.includes
    ("Query execution failed on statement: " +:+
     String "034" (s +:+ String "034" (". Error: " +:+ message))) s = true.
Proof.
  apply includes_later.
  change (String "034" ?x) with (String "034" "" +:+ x).
  apply includes_later, includes_here.
Qed.

Lemma includes_end (s : string) : Js.includes s s = true.
Proof. rewrite <- (str_app_empty_r s) at 1. apply includes_here. Qed.

Lemma includes_message (s message : string) :
  Js.includes
    ("Query execution failed on statement: " +:+
     String "034" (s +:+ String "034" (". Error: " +:+ message))) message
  = true.
Proof.
  apply includes_later.
  change (String "034" (s +:+ ?x)) with ((String "034" s) +:+ x).
  apply includes_later.
  change (String "034" ?x) with (String "034" "" +:+ x).
  apply includes_later, includes_later, includes_end.
Qed.

Section BatchFacts.

Context {W : Type} (fetch_query : W -> string -> W * Fetched)
        (has_callback : bool).

Abbreviation run := (run fetch_query has_callback).

(** While no request fails, every statement is sent, in order, and the
    total grows by the counts of the answers. *)
Lemma run_all_ok : forall statements st,
  queryFailed (run statements st) = queryFailed st ->
  queryFailed st = false ->
  sent (run statements st) = sent st ++ statements /\
  totalRowCount (run statements st) =
    (totalRowCount st +
     sum_affected (answers fetch_query (world st) statements))%Z /\
  Forall (fun f => failure_of f = None)
    (answers fetch_query (world st) statements).
Proof.
  induction statements as [|s rest IH]; intros st Hsame Hok; simpl.
  - rewrite app_nil_r. repeat split; [lia|constructor].
  - simpl in Hsame.
    destruct (fetch_query (world st) s) as [w [m|[] data]];
      simpl in Hsame; try congruence.
    destruct (IH (succeed has_callback st w s data)) as (Hs & Ht & Hf);
      [done|done|].
    simpl in *. rewrite Hs, Ht, <- app_assoc. repeat split.
    + destruct (d_rowCount data); simpl; lia.
    + by constructor.
Qed.

(** C3: when a batch fails, it fails at one statement [s]: the statements
    in front of [s] were all answered without failure, [s] is the last
    request sent, so no statement after it is executed; the error shown is
    the text [Query execution failed on statement: "s". Error: message],
    which names [s] and carries the message of its failure, the one of the
    rejection or the [error] of the response, or the fixed text when the
    response has none; and the running total is the sum of the counts
    answered for the statements in front of [s]. *)
Theorem C3_batch_stops_at_first_failure (statements : list string)
    (st : Loop) :
  queryFailed st = false ->
  queryFailed (run statements st) = true ->
  exists pre s post w f message,
    statements = pre ++ s :: post /\
    queryFailed (run pre st) = false /\
    fetch_query (world (run pre st)) s = (w, f) /\
    failure_of f = Some message /\
    match f with
    | Rejected m => message = m
    | Responded false data =>
        message = match d_error data with
                  | Some e =>
                      if String.eqb e "" then "Failed to execute query."
                      else e
                  | None => "Failed to execute query."
                  end
    | Responded true _ => False
    end /\
    sent (run statements st) = sent st ++ pre ++ [s] /\
    world (run statements st) = w /\
    errorMessage (run statements st) =
      Some ("Query execution failed on statement: " +:+
            String "034" (s +:+ String "034" (". Error: " +:+ message))) /\
    Js.includes
      (default "" (errorMessage (run statements st))) s = true /\
    Js.includes
      (default "" (errorMessage (run statements st))) message = true /\
    totalRowCount (run statements st) =
      (totalRowCount st +
       sum_affected (answers fetch_query (world st) pre))%Z /\
    summary statements (run statements st) = None.
Proof.
  revert st. induction statements as [|s rest IH]; intros st Hok Hfail.
  - simpl in Hfail. congruence.
  - simpl in Hfail |- *.
    destruct (fetch_query (world st) s) as [w f] eqn:Hfetch.
    destruct f as [m|[] data].
    + exists [], s, rest, w, (Rejected m), m. simpl.
      rewrite Hfetch.
      split_and!; try done; [apply includes_statement|
                             apply includes_message|lia].
    + destruct (IH (succeed has_callback st w s data) Hok Hfail)
        as (pre & s' & post & w' & f & message &
            -> & Hpre & Hf & Hm & Hmsg & Hsent & Hw & He & Hs & Hi & Ht &
            Hsum).
      exists (s :: pre), s', post, w', f, message. simpl.
      rewrite Hfetch. simpl in *.
      rewrite Hsent, Ht, <- !app_assoc.
      split_and!; try done.
      * destruct (d_rowCount data); simpl; lia.
      * unfold summary in *. by rewrite Hfail in *.
    + exists [], s, rest, w, (Responded false data),
        (or_else (default "" (d_error data)) "Failed to execute query.").
      simpl. rewrite Hfetch.
      split_and!; try done;
        [|apply includes_statement|apply includes_message|lia].
      destruct (d_error data) as [[|c e]|]; done.
Qed.

End BatchFacts.

(** In front of the server the message of a failed statement is the
    engine's, or the fixed text when the engine gave none. *)
Lemma fetch_from_server_failure {DB} (prisma : Prisma DB) (db db' : DB)
    (statement m : string) :
  Js.truthy statement = true ->
  (if isExecute statement
   then executeRawUnsafe prisma db (SqlText statement) [] = (db', Throw m)
   else queryRawUnsafe prisma db (SqlText statement) [] = (db', Throw m)) ->
  exists f,
    fetch_from_server prisma db statement = (db', f) /\
    failure_of f = Some (or_else m "Failed to execute query.").
Proof.
  intros Hs Hfail. unfold fetch_from_server, post_query. rewrite Hs. simpl.
  destruct (isExecute statement); rewrite Hfail; simpl;
    (eexists; split; [reflexivity|]); simpl;
    unfold or_else; by destruct (Js.truthy m) eqn:Hm; rewrite ?Hm.
Qed.

(** A batch of three statements whose second is refused: the third is
    never sent. *)
Lemma C3_witness :
  exists pre s post w f message,
    three_statements = pre ++ s :: post /\
    queryFailed (run scripted true pre (start three_answers)) = false /\
    scripted (world (run scripted true pre (start three_answers))) s =
      (w, f) /\
    failure_of f = Some message /\
    match f with
    | Rejected m => message = m
    | Responded false data =>
        message = match d_error data with
                  | Some e =>
                      if String.eqb e "" then "Failed to execute query."
                      else e
                  | None => "Failed to execute query."
                  end
    | Responded true _ => False
    end /\
    sent (run scripted true three_statements (start three_answers)) =
      [] ++ pre ++ [s] /\
    world (run scripted true three_statements (start three_answers)) = w /\
    errorMessage (run scripted true three_statements (start three_answers)) =
      Some ("Query execution failed on statement: " +:+
            String "034" (s +:+ String "034" (". Error: " +:+ message))) /\
    Js.includes
      (default ""
         (errorMessage
            (run scripted true three_statements (start three_answers))))
      s = true /\
    Js.includes
      (default ""
         (errorMessage
            (run scripted true three_statements (start three_answers))))
      message = true /\
    totalRowCount (run scripted true three_statements (start three_answers)) =
      (0 + sum_affected (answers scripted three_answers pre))%Z /\
    summary three_statements
      (run scripted true three_statements (start three_answers)) = None.
Proof.
  apply (C3_batch_stops_at_first_failure scripted true three_statements
           (start three_answers)).
  - reflexivity.
  - vm_compute. reflexivity.
Defined.

(** What that batch leaves behind: two requests sent, the count of the
    first, the error of the second, and the third answer never asked
    for. *)
Example batch_of_three :
  let st := run scripted true three_statements (start three_answers) in
  sent st = ["INSERT INTO t VALUES (1)"; "SELEC 1"] /\
  totalRowCount st = 1%Z /\
  errorMessage st =
    Some ("Query execution failed on statement: " +:+
          String "034" ("SELEC 1" +:+ String "034"
            ". Error: near SELEC: syntax error")) /\
  world st = [affected 1].
Proof. by vm_compute. Qed.

(** ** The row handlers on the engine *)

Section EngineFacts.

Import MemDb.
Implicit Types (t : Table) (row : Stored) (db : Db).



End EngineFacts.

Lemma sanitizeTableName_valid (name : string) :
  valid_identifier name = true -> sanitizeTableName name = Ok name.
Proof.
  intros H. unfold sanitizeTableName. by rewrite test_ident_pattern, H.
Qed.

Lemma sanitizeColumnName_valid (name : string) :
  valid_identifier name = true -> sanitizeColumnName name = Ok name.
Proof.
  intros H. unfold sanitizeColumnName. by rewrite test_ident_pattern, H.
Qed.




(** ** The guard on the names of the fields *)


Lemma sanitize_all (l : Row) :
  Forall (fun kv => valid_identifier (fst kv) = true) l ->
  mapM (fun kv => sanitizeColumnName (fst kv)) l = Ok (keys l).
Proof.
  induction 1 as [|kv l Hkv _ IH]; [done|].
  cbn [mapM]. rewrite (sanitizeColumnName_valid _ Hkv). simpl.
  unfold keys in IH. by rewrite IH.
Qed.

Lemma sanitizeColumnName_invalid (name : string) :
  valid_identifier name = false ->
  sanitizeColumnName name = Throw ("Invalid column name: " +:+ name).
Proof.
  intros H. unfold sanitizeColumnName. by rewrite test_ident_pattern, H.
Qed.

Lemma first_invalid_column (l : Row) :
  Exists (fun kv => valid_identifier (fst kv) = false) l ->
  exists k,
    k ∈ keys l /\ valid_identifier k = false /\
    mapM (fun kv => sanitizeColumnName (fst kv)) l =
      Throw ("Invalid column name: " +:+ k).
Proof.
  induction l as [|kv l IH]; intros Hex.
  { by apply Exists_nil in Hex. }
  destruct (valid_identifier (fst kv)) eqn:Hkv.
  - apply Exists_cons in Hex as [Hex|Hex]; [congruence|].
    destruct (IH Hex) as (k & Hin & Hk & Hm).
    exists k. split_and!; [by apply elem_of_cons; right|done|].
    cbn [mapM]. rewrite (sanitizeColumnName_valid _ Hkv). simpl.
    by rewrite Hm.
  - exists (fst kv). split_and!; [by apply elem_of_cons; left|done|].
    cbn [mapM]. by rewrite (sanitizeColumnName_invalid _ Hkv).
Qed.



(** ** Assignment to a property *)

Lemma get_assign_same (k : string) (v : Value) (obj : Row) :
  get k (assign k v obj) = Some v.
Proof.
  induction obj as [|[x old] obj IH]; simpl; [by rewrite String.eqb_refl|].
  destruct (String.eqb_spec x k) as [->|Hx]; simpl.
  - by rewrite String.eqb_refl.
  - by destruct (String.eqb_spec x k).
Qed.

Lemma get_assign_other (k k' : string) (v : Value) (obj : Row) :
  k <> k' -> get k (assign k' v obj) = get k obj.
Proof.
  intros Hne. induction obj as [|[x old] obj IH]; simpl.
  - by destruct (String.eqb_spec k' k) as [->|_].
  - destruct (String.eqb_spec x k') as [->|Hx]; simpl.
    + by destruct (String.eqb_spec k' k) as [->|_].
    + by rewrite IH.
Qed.

(** ** What the row handlers send *)

Section Journal.

Context {DB : Type} (prisma : Prisma DB).



End Journal.



(** The update of two fields of row 1 of [users]: the journal holds the one
    statement for the first field, whatever the client answers. *)
Example update_of_two_fields :
  journal
    (put_data (recording (canned (Ok []))) "users" "1"
       [("name", VStr "Eve"); ("ID", VNum (Num.of_Z 9))] (tt, [])) =
    [("UPDATE `users` SET `name` = ? WHERE `ID` = ? RETURNING *;",
      [VStr "Eve"; VNum (Num.of_Z 1)])].
Proof. by vm_compute. Qed.

(** ** Insertion *)

Lemma get_delete_key_same (k : string) (row : Row) :
  get k (delete_key k row) = None.
Proof.
  unfold delete_key. induction row as [|[k' v] row IH]; [done|].
  rewrite filter_cons. cbn [fst]. case_decide as Hk; [|done].
  apply negb_true_iff in Hk. simpl. by rewrite Hk.
Qed.

Lemma get_delete_key_other (k k' : string) (row : Row) :
  k <> k' -> get k (delete_key k' row) = get k row.
Proof.
  intros Hne. unfold delete_key.
  induction row as [|[x v] row IH]; [done|].
  rewrite filter_cons. cbn [fst]. case_decide as Hx; simpl.
  - by rewrite IH.
  - apply not_true_is_false, negb_false_iff, String.eqb_eq in Hx as ->.
    by destruct (String.eqb_spec k' k) as [->|_].
Qed.






(** A key supplied as [id] is not dropped: it is sent with the other
    fields. *)
Example insert_keeps_the_key_named_id :
  journal
    (post_data (recording (canned (Ok []))) "people"
       [("id", VNum (Num.of_Z 7)); ("name", VStr "Ada")] (tt, [])) =
    [("INSERT INTO `people` (id, name) VALUES (?, ?) RETURNING *;",
      [VNum (Num.of_Z 7); VStr "Ada"])].
Proof. by vm_compute. Qed.

(** ** The editor's save path *)

Lemma assign_coerced (P : Value -> Prop) key v (obj : Row) :
  P v -> Forall (fun kv => P (snd kv)) obj ->
  Forall (fun kv => P (snd kv)) (assign key v obj).
Proof.
  intros Hv. induction 1 as [|[k old] obj Hold Hobj IH]; simpl.
  - by repeat constructor.
  - destruct (String.eqb k key); by constructor.
Qed.

(** Every value the editor posts for a new row went through the coercer. *)
Lemma finalData_coerced (columns : list (string * string)) (newRow : Row) :
  Forall (fun kv => exists raw type,
            snd kv = safeTypeConvert (Some raw) type)
    (finalData columns newRow).
Proof.
  unfold finalData.
  generalize (delete_key "isNew" (delete_key pkName newRow)) as dataToSave.
  intros dataToSave.
  assert (Hnil : Forall (fun kv : string * Value => exists raw type,
                           snd kv = safeTypeConvert (Some raw) type) [])
    by constructor.
  revert Hnil. generalize (@nil (string * Value)) as acc.
  induction columns as [|col columns IH]; intros acc Hacc; [done|].
  simpl. apply IH.
  destruct (get (fst col) dataToSave) as [v|]; [|done].
  destruct (negb _); [|done].
  apply (assign_coerced (fun v => exists raw type,
                           v = safeTypeConvert (Some raw) type)); eauto.
Qed.

(** The example of the specification through the editor: the new row
    [{active: "yes", name: "Ada"}] is posted as [{active: true, name: "Ada"}],
    and those are the values the insert binds. *)
Example save_new_row_coerces :
  finalData [("id", "Int"); ("active", "Boolean"); ("name", "String")]
    [("id", VStr "temp-1"); ("isNew", VBool true); ("active", VStr "yes");
     ("name", VStr "Ada")] =
    [("active", VBool true); ("name", VStr "Ada")] /\
  journal
    (post_data (recording (canned (Ok []))) "people"
       [("active", VBool true); ("name", VStr "Ada")] (tt, [])) =
    [("INSERT INTO `people` (active, name) VALUES (?, ?) RETURNING *;",
      [VBool true; VStr "Ada"])].
Proof. by vm_compute. Qed.

(** * Further properties *)

(** ** The splitter, beyond the claims *)

Lemma trimEnd_twice (s : string) : Js.trimEnd (Js.trimEnd s) = Js.trimEnd s.
Proof.
  induction s as [|c s IH]; [done|]. simpl.
  destruct (Js.trimEnd s) as [|d u] eqn:Hu.
  - destruct (Js.is_white c) eqn:Hc; [done|]. simpl. by rewrite Hc.
  - change (Js.trimEnd (String c (String d u))) with
      (match Js.trimEnd (String d u) with
       | EmptyString =>
           if Js.is_white c then EmptyString else String c EmptyString
       | t => String c t
       end).
    by rewrite IH.
Qed.

Lemma trimEnd_keeps_head (c : ascii) (s : string) :
  Js.is_white c = false ->
  exists t, Js.trimEnd (String c s) = String c t.
Proof.
  intros Hc. simpl. destruct (Js.trimEnd s); rewrite ?Hc; eauto.
Qed.

Lemma trimStart_trimmed (s : string) :
  Js.trimStart (Js.trim s) = Js.trim s.
Proof.
  unfold Js.trim. induction s as [|c s IH]; [done|].
  cbn [Js.trimStart]. destruct (Js.is_white c) eqn:Hc; [done|].
  destruct (trimEnd_keeps_head c s Hc) as [t ->]. simpl. by rewrite Hc.
Qed.

Lemma trim_twice (s : string) : Js.trim (Js.trim s) = Js.trim s.
Proof.
  unfold Js.trim at 1. rewrite trimStart_trimmed.
  unfold Js.trim. apply trimEnd_twice.
Qed.

(** Every statement the splitter returns is non-empty and has no white
    space around it. *)
Theorem splitQueries_statements_are_trimmed (sql : string) :
  Forall (fun s => s <> "" /\ Js.trim s = s) (splitQueries sql).
Proof.
  rewrite splitQueries_unfold.
  destruct (Js.all_chars Js.is_white sql); [constructor|].
  rewrite filter_trimmed. apply Forall_forall. intros s Hs.
  apply list_elem_of_In, in_map_iff in Hs as (u & <- & Hu).
  apply list_elem_of_In, list_elem_of_filter in Hu as [Hu _].
  split; [|apply trim_twice].
  intros He. apply trim_empty in He. congruence.
Qed.

Lemma pieces_not_nil (s : string) : forall cur, pieces cur s <> [].
Proof.
  induction s as [|c s IH]; intros cur; simpl; [done|].
  destruct (_ && _); [done|apply IH].
Qed.

Lemma join_cons (sep x : string) (l : list string) :
  l <> [] -> join sep (x :: l) = x +:+ sep +:+ join sep l.
Proof. by destruct l. Qed.

Lemma join_pieces (s : string) : forall cur,
  join ";" (pieces cur s) = cur +:+ s.
Proof.
  induction s as [|c s IH]; intros cur; simpl;
    [by rewrite str_app_empty_r|].
  destruct (Ascii.eqb_spec c ";") as [->|_]; simpl.
  - destruct (Js.all_chars not_quote s).
    + rewrite join_cons by apply pieces_not_nil. by rewrite IH.
    + rewrite IH. by rewrite str_app_assoc.
  - rewrite IH. by rewrite str_app_assoc.
Qed.

(** Splitting loses nothing but the boundaries: the pieces of the split,
    joined again with semicolons, are the blob. *)
Theorem split_then_join (sql : string) :
  join ";" (Regex.split split_pattern sql) = sql.
Proof. rewrite split_is_pieces. apply join_pieces. Qed.

Lemma pieces_blank (s : string) : forall cur,
  Js.all_chars white_or_semicolon s = true ->
  Js.all_chars Js.is_white cur = true ->
  Forall (fun p => Js.all_chars Js.is_white p = true) (pieces cur s).
Proof.
  induction s as [|c s IH]; intros cur Hs Hcur; simpl.
  - by constructor.
  - simpl in Hs. apply andb_true_iff in Hs as [Hc Hs].
    destruct (Ascii.eqb c ";" && Js.all_chars not_quote s) eqn:Hsplit.
    + constructor; [done|]. by apply IH.
    + apply IH; [done|]. rewrite all_chars_app, Hcur. simpl.
      rewrite andb_true_r.
      unfold white_or_semicolon in Hc.
      destruct (Js.is_white c); [done|]. simpl in Hc.
      rewrite Hc in Hsplit. simpl in Hsplit.
      assert (Js.all_chars not_quote s = true) as Hq; [|congruence].
      clear -Hs. induction s as [|d s IH]; [done|]. simpl in *.
      apply andb_true_iff in Hs as [Hd Hs]. rewrite (IH Hs), andb_true_r.
      unfold white_or_semicolon in Hd. unfold not_quote.
      by destruct d as [[] [] [] [] [] [] [] []].
Qed.

Lemma splitQueries_blank (sql : string) :
  Js.all_chars white_or_semicolon sql = true -> splitQueries sql = [].
Proof.
  intros Hs. rewrite splitQueries_unfold.
  destruct (Js.all_chars Js.is_white sql); [done|].
  rewrite filter_trimmed.
  pose proof (pieces_blank sql "" Hs eq_refl) as Hp.
  induction Hp as [|p l Hp _ IH]; [done|].
  rewrite filter_cons, decide_False by congruence. exact IH.
Qed.

(** A blob of white space and semicolons only holds no statement. *)
Theorem only_separators_give_no_statement (sql : string) :
  Js.all_chars white_or_semicolon sql = true -> splitQueries sql = [].
Proof. apply splitQueries_blank. Qed.

Lemma only_separators_witness : splitQueries " ;; ; " = [].
Proof. exact (only_separators_give_no_statement " ;; ; " eq_refl). Defined.

Lemma splitQueries_plain_witness :
  splitQueries "SELECT 1; UPDATE t SET a = 2 ;" =
  ["SELECT 1"; "UPDATE t SET a = 2"].
Proof.
  exact (splitQueries_plain ["SELECT 1"; " UPDATE t SET a = 2 "] eq_refl).
Defined.

(** No semicolon in front of the last quote of the blob is a boundary: when
    no semicolon follows that quote, closed or not, the whole blob is one
    statement. *)
Theorem no_boundary_before_the_last_quote (a b : string) :
  Js.all_chars not_semicolon b = true ->
  splitQueries (a +:+ "'" +:+ b) = [Js.trim (a +:+ "'" +:+ b)].
Proof.
  intros Hb. rewrite splitQueries_unfold.
  rewrite all_chars_app. rewrite (str_app_cons "'"). simpl.
  rewrite andb_false_r.
  rewrite pieces_before_quote by done.
  rewrite !str_app_empty_l. cbn [pieces Ascii.eqb Bool.eqb andb].
  rewrite <- (str_app_empty_r b) at 1.
  rewrite (pieces_no_semicolon b) by done.
  change (pieces ?cur "") with [cur].
  rewrite filter_trimmed, !str_app_assoc.
  rewrite filter_cons, decide_True; [done|].
  rewrite all_chars_app, str_app_cons. simpl. by rewrite andb_false_r.
Qed.

Lemma no_boundary_witness :
  splitQueries "SELECT 1; SELECT 2; SELECT 'it" =
  ["SELECT 1; SELECT 2; SELECT 'it"].
Proof.
  exact (no_boundary_before_the_last_quote "SELECT 1; SELECT 2; SELECT "
           "it" eq_refl).
Defined.

(** ** The two classifiers *)







(** ** The handlers, whatever the engine *)

Section HandlerFacts.

Context {DB : Type} (prisma : Prisma DB).

Lemma sanitizeTableName_invalid (name : string) :
  valid_identifier name = false ->
  sanitizeTableName name = Throw ("Invalid table name format: " +:+ name).
Proof.
  intros H. unfold sanitizeTableName. by rewrite test_ident_pattern, H.
Qed.

(** A table name that does not pass the guard never reaches the database:
    each of the four data handlers answers 500 with the guard's message and
    leaves the database as it was, whatever the engine would have done. *)
Theorem invalid_table_name_is_refused (tableName id : string)
    (fields : Row) (db : DB) :
  valid_identifier tableName = false ->
  get_data prisma tableName db =
    (db, failure 500 ("Failed to fetch data for table " +:+ tableName +:+
                      ". Error: Invalid table name format: " +:+ tableName)) /\
  post_data prisma tableName fields db =
    (db, failure 500 ("Failed to insert row: Invalid table name format: "
                      +:+ tableName)) /\
  put_data prisma tableName id fields db =
    (db, failure 500 ("Failed to update cell: Invalid table name format: "
                      +:+ tableName)) /\
  delete_data prisma tableName id db =
    (db, failure 500 ("Failed to delete row: Invalid table name format: "
                      +:+ tableName)).
Proof.
  intros H. unfold get_data, post_data, put_data, delete_data.
  by rewrite (sanitizeTableName_invalid _ H).
Qed.

(** A field whose name does not pass the guard stops the insert before any
    statement is sent: the answer is 500 with the guard's message for the
    first such field, and the database is as it was. *)
Theorem insert_refuses_invalid_column (tableName : string) (fields : Row)
    (db : DB) :
  valid_identifier tableName = true ->
  Exists (fun kv => valid_identifier (fst kv) = false)
    (delete_key "ID" fields) ->
  exists k,
    k ∈ keys (delete_key "ID" fields) /\
    valid_identifier k = false /\
    post_data prisma tableName fields db =
      (db, failure 500 ("Failed to insert row: Invalid column name: " +:+ k)).
Proof.
  intros Ht Hex. destruct (first_invalid_column _ Hex) as (k & Hin & Hk & Hm).
  exists k. split_and!; [done|done|].
  unfold post_data. rewrite (sanitizeTableName_valid _ Ht).
  unfold getPrimaryKey. by rewrite Hm.
Qed.

(** The update checks the name of the first field only, and refuses it
    before any statement is sent when it does not pass the guard. *)
Theorem update_refuses_invalid_column (tableName id key : string)
    (value : Value) (rest : Row) (db : DB) :
  valid_identifier tableName = true ->
  valid_identifier key = false ->
  put_data prisma tableName id ((key, value) :: rest) db =
    (db, failure 500 ("Failed to update cell: Invalid column name: " +:+ key)).
Proof.
  intros Ht Hk. unfold put_data.
  by rewrite (sanitizeTableName_valid _ Ht), (sanitizeColumnName_invalid _ Hk).
Qed.

(** The update does not narrow what the engine returns: when the row it got
    back holds a [bigint], the answer is the serializer's error with status
    500, and the database is the one the engine left, with the update
    done. *)
Theorem update_with_bigint_answers_error (tableName id key : string)
    (value : Value) (rest : Row) (db db1 : DB) (row : Row)
    (rows : list Row) :
  valid_identifier tableName = true ->
  valid_identifier key = true ->
  queryRawUnsafe prisma db (UpdateReturning tableName key "ID")
    [value; VNum (Num.parseInt id)] = (db1, Ok (row :: rows)) ->
  row_has_bigint row = true ->
  put_data prisma tableName id ((key, value) :: rest) db =
    (db1, failure 500
            "Failed to update cell: Do not know how to serialize a BigInt").
Proof.
  intros Ht Hk Hq Hrow. unfold put_data.
  rewrite (sanitizeTableName_valid _ Ht), (sanitizeColumnName_valid _ Hk).
  unfold getPrimaryKey. rewrite Hq. unfold json. simpl. by rewrite Hrow.
Qed.

(** The insert does not narrow either: a new row that comes back with a
    [bigint] is answered with the serializer's error, status 500, after the
    engine has stored it. *)
Theorem insert_with_bigint_answers_error (tableName : string) (fields : Row)
    (db db1 : DB) (row : Row) (rows : list Row) :
  valid_identifier tableName = true ->
  Forall (fun kv => valid_identifier (fst kv) = true)
    (delete_key "ID" fields) ->
  queryRawUnsafe prisma db
    (InsertReturning tableName (keys (delete_key "ID" fields)))
    (map snd (delete_key "ID" fields)) = (db1, Ok (row :: rows)) ->
  row_has_bigint row = true ->
  post_data prisma tableName fields db =
    (db1, failure 500
            "Failed to insert row: Do not know how to serialize a BigInt").
Proof.
  intros Ht Hk Hq Hrow. unfold post_data.
  rewrite (sanitizeTableName_valid _ Ht). unfold getPrimaryKey.
  rewrite (sanitize_all _ Hk), Hq. unfold json. simpl. by rewrite Hrow.
Qed.

(** Whatever the client: an update for which the client returns no row,
    as when no row has the id, is answered with an empty object and status
    200, and a delete is answered 204 whatever the number of rows the
    client reports, none included.  Neither handler looks at how many rows
    were reached. *)
Theorem no_row_reached_is_success (tableName id key : string)
    (value : Value) (rest : Row) (db db1 db2 : DB) (n : Z) :
  valid_identifier tableName = true ->
  valid_identifier key = true ->
  queryRawUnsafe prisma db (UpdateReturning tableName key "ID")
    [value; VNum (Num.parseInt id)] = (db1, Ok []) ->
  executeRawUnsafe prisma db (DeleteWhere tableName "ID")
    [VNum (Num.parseInt id)] = (db2, Ok n) ->
  put_data prisma tableName id ((key, value) :: rest) db =
    (db1, {| status := 200; body := BRow [] |}) /\
  delete_data prisma tableName id db =
    (db2, {| status := 204; body := BNone |}).
Proof.
  intros Ht Hk Hupdate Hdelete. unfold put_data, delete_data.
  rewrite (sanitizeTableName_valid _ Ht), (sanitizeColumnName_valid _ Hk).
  unfold getPrimaryKey. by rewrite Hupdate, Hdelete.
Qed.

End HandlerFacts.

Lemma invalid_table_name_witness :
  get_data (MemDb.engine true) "users; DROP TABLE users" users_db =
    (users_db,
     failure 500 ("Failed to fetch data for table " +:+
                  "users; DROP TABLE users" +:+
                  ". Error: Invalid table name format: " +:+
                  "users; DROP TABLE users")) /\
  post_data (MemDb.engine true) "users; DROP TABLE users"
    [("name", VStr "Eve")] users_db =
    (users_db,
     failure 500 ("Failed to insert row: Invalid table name format: " +:+
                  "users; DROP TABLE users")) /\
  put_data (MemDb.engine true) "users; DROP TABLE users" "1"
    [("name", VStr "Eve")] users_db =
    (users_db,
     failure 500 ("Failed to update cell: Invalid table name format: " +:+
                  "users; DROP TABLE users")) /\
  delete_data (MemDb.engine true) "users; DROP TABLE users" "1" users_db =
    (users_db,
     failure 500 ("Failed to delete row: Invalid table name format: " +:+
                  "users; DROP TABLE users")).
Proof.
  exact (invalid_table_name_is_refused (MemDb.engine true)
           "users; DROP TABLE users" "1" [("name", VStr "Eve")] users_db
           eq_refl).
Defined.

Lemma insert_invalid_column_witness :
  exists k,
    k ∈ keys (delete_key "ID" [("name", VStr "Eve"); ("a b", VNull)]) /\
    valid_identifier k = false /\
    post_data (MemDb.engine true) "users"
      [("name", VStr "Eve"); ("a b", VNull)] users_db =
      (users_db,
       failure 500 ("Failed to insert row: Invalid column name: " +:+ k)).
Proof.
  apply (insert_refuses_invalid_column (MemDb.engine true) "users"
           [("name", VStr "Eve"); ("a b", VNull)] users_db eq_refl).
  apply Exists_cons_tl, Exists_cons_hd. reflexivity.
Defined.

Lemma update_invalid_column_witness :
  put_data (MemDb.engine true) "users" "1"
    [("name = 'x' --", VStr "Eve")] users_db =
  (users_db,
   failure 500 ("Failed to update cell: Invalid column name: " +:+
                "name = 'x' --")).
Proof.
  exact (update_refuses_invalid_column (MemDb.engine true) "users" "1"
           "name = 'x' --" (VStr "Eve") [] users_db eq_refl eq_refl).
Defined.

(** On [users], with integers returned as [bigint]: the name of row 1 is
    changed and the answer is the error. *)
Lemma update_with_bigint_witness :
  snd (put_data (MemDb.engine true) "users" "1" [("name", VStr "Eve")]
         users_db) =
    failure 500
      "Failed to update cell: Do not know how to serialize a BigInt" /\
  stored (fst (put_data (MemDb.engine true) "users" "1"
                 [("name", VStr "Eve")] users_db)) "users" "name" =
    [Some (MemDb.CText "Eve"); Some (MemDb.CText "Bob")].
Proof.
  erewrite (update_with_bigint_answers_error (MemDb.engine true) "users" "1"
              "name" (VStr "Eve") [] users_db);
    only 2-5: reflexivity.
  split; [reflexivity|by vm_compute].
Defined.

Lemma insert_with_bigint_witness :
  snd (post_data (MemDb.engine true) "users" [("name", VStr "Cy")]
         users_db) =
    failure 500
      "Failed to insert row: Do not know how to serialize a BigInt" /\
  stored (fst (post_data (MemDb.engine true) "users" [("name", VStr "Cy")]
                 users_db)) "users" "name" =
    [Some (MemDb.CText "Ada"); Some (MemDb.CText "Bob");
     Some (MemDb.CText "Cy")].
Proof.
  erewrite (insert_with_bigint_answers_error (MemDb.engine true) "users"
              [("name", VStr "Cy")] users_db);
    only 2,4-5: reflexivity; only 2: repeat constructor.
  split; [reflexivity|by vm_compute].
Defined.

Lemma no_row_reached_witness :
  put_data (canned (Ok [])) "users" "7" [("name", VStr "Zed")] tt =
    (tt, {| status := 200; body := BRow [] |}) /\
  delete_data (canned (Ok [])) "users" "7" tt =
    (tt, {| status := 204; body := BNone |}).
Proof.
  exact (no_row_reached_is_success (canned (Ok [])) "users" "7" "name"
           (VStr "Zed") [] tt tt tt 0 eq_refl eq_refl eq_refl eq_refl).
Defined.

Lemma get_data_narrows_witness :
  exists columns,
    get_data (MemDb.engine true) "users" users_db =
    (users_db,
     {| status := 200;
        body := BTable columns
          (map wire_row
             (map processRow
                [ [("ID", VBigInt 1); ("name", VStr "Ada")];
                  [("ID", VBigInt 2); ("name", VStr "Bob")] ])) |}).
Proof.
  apply (get_data_narrows (MemDb.engine true) "users" users_db users_db
           users_db
           (imap (MemDb.info_row true) (MemDb.tbl_columns users_table)));
    reflexivity.
Defined.

(** ** The batch executor, beyond the claims *)

Section BatchMore.

Context {W : Type} (fetch_query : W -> string -> W * Fetched)
        (has_callback : bool).

Abbreviation run' := (run fetch_query has_callback).

(** The requests sent are the statements of the batch from the first up to
    some point, in order: none is skipped, repeated or reordered. *)
Theorem requests_are_a_prefix (statements : list string) (st : Loop) :
  exists n,
    n <= length statements /\
    sent (run' statements st) = sent st ++ take n statements.
Proof.
  revert st. induction statements as [|s rest IH]; intros st.
  - exists 0. simpl. by rewrite app_nil_r.
  - simpl. destruct (fetch_query (world st) s) as [w [m|[] data]].
    + exists 1. simpl. split; [lia|]. by rewrite take_0.
    + destruct (IH (succeed has_callback st w s data)) as (n & Hn & Hs).
      exists (S n). split; [lia|]. rewrite Hs. simpl.
      by rewrite <- app_assoc.
    + exists 1. simpl. split; [lia|]. by rewrite take_0.
Qed.

(** The table list is refreshed once for every data definition statement of
    a batch that runs without failure, and never when the component was
    given no callback. *)
Theorem refreshes_count_ddl (statements : list string) (st : Loop) :
  queryFailed st = false ->
  queryFailed (run' statements st) = false ->
  refreshes (run' statements st) =
    refreshes st +
    (if has_callback
     then length (filter (fun s => isDDL s = true) statements) else 0).
Proof.
  revert st. induction statements as [|s rest IH]; intros st Hok Hrun.
  - simpl. destruct has_callback; simpl; lia.
  - simpl in Hrun |- *.
    destruct (fetch_query (world st) s) as [w [m|[] data]]; try done.
    rewrite (IH (succeed has_callback st w s data) Hok Hrun). simpl.
    rewrite filter_cons.
    destruct has_callback; [|by rewrite andb_false_r].
    rewrite andb_true_r.
    destruct (isDDL s); [rewrite decide_True by done|
                         rewrite decide_False by done]; simpl; lia.
Qed.

Lemma run_snoc (pre : list string) (s : string) : forall st,
  queryFailed st = false ->
  queryFailed (run' (pre ++ [s]) st) = false ->
  queryFailed (run' pre st) = false /\
  run' (pre ++ [s]) st = run' [s] (run' pre st).
Proof.
  induction pre as [|x pre IH]; intros st Hok Hrun; [done|].
  simpl in Hrun |- *.
  destruct (fetch_query (world st) x) as [w [m|[] data]]; try done.
  by apply (IH (succeed has_callback st w x data)).
Qed.

(** Of a batch that runs without failure only the last statement decides
    what is shown: its rows when it returned rows, and otherwise a success
    message with the total of affected rows. *)
Theorem last_statement_decides_the_result (pre : list string) (s : string)
    (st : Loop) :
  queryFailed st = false ->
  queryFailed (run' (pre ++ [s]) st) = false ->
  exists w data,
    fetch_query (world (run' pre st)) s = (w, Responded true data) /\
    lastResult (run' (pre ++ [s]) st) = Some (s, data) /\
    match d_rows data with
    | Some rows =>
        exists columns,
          summary (pre ++ [s]) (run' (pre ++ [s]) st) =
            Some (ResData rows columns)
    | None =>
        exists message,
          summary (pre ++ [s]) (run' (pre ++ [s]) st) =
            Some (ResSuccess message (totalRowCount (run' (pre ++ [s]) st)))
    end.
Proof.
  intros Hok Hrun.
  destruct (run_snoc pre s st Hok Hrun) as [Hpre Heq].
  unfold summary. rewrite Hrun. rewrite Heq in Hrun |- *.
  simpl in Hrun |- *.
  destruct (fetch_query (world (run' pre st)) s) as [w [m|[] data]];
    try done.
  exists w, data. split_and!; [done|done|]. simpl.
  destruct (d_rows data); eauto.
Qed.

(** A blob of white space and semicolons only sends no request: the
    component reports that it found no statement. *)
Theorem blank_blob_sends_nothing (sqlQuery : string) (w : W) :
  Js.all_chars white_or_semicolon sqlQuery = true ->
  handleExecuteQuery fetch_query has_callback sqlQuery w =
    (start w, {| shown_error := Some "No valid SQL statements found.";
                 shown_results := None |}).
Proof.
  intros H. unfold handleExecuteQuery. by rewrite (splitQueries_blank _ H).
Qed.

End BatchMore.

Lemma run_all_ok_witness :
  sent (run one_row_each true
          ["CREATE TABLE t (a)"; "INSERT INTO t VALUES (1)"] (start 0)) =
    [] ++ ["CREATE TABLE t (a)"; "INSERT INTO t VALUES (1)"] /\
  totalRowCount (run one_row_each true
          ["CREATE TABLE t (a)"; "INSERT INTO t VALUES (1)"] (start 0)) =
    (0 + sum_affected
           (answers one_row_each 0%nat
              ["CREATE TABLE t (a)"; "INSERT INTO t VALUES (1)"]))%Z /\
  Forall (fun f => failure_of f = None)
    (answers one_row_each 0
       ["CREATE TABLE t (a)"; "INSERT INTO t VALUES (1)"]).
Proof.
  exact (run_all_ok one_row_each true
           ["CREATE TABLE t (a)"; "INSERT INTO t VALUES (1)"] (start 0)
           eq_refl eq_refl).
Defined.

Lemma refreshes_count_witness :
  refreshes (run one_row_each true
               ["CREATE TABLE t (a)"; "INSERT INTO t VALUES (1)";
                "drop table t"] (start 0)) = 0 + 2.
Proof.
  exact (refreshes_count_ddl one_row_each true
           ["CREATE TABLE t (a)"; "INSERT INTO t VALUES (1)"; "drop table t"]
           (start 0) eq_refl eq_refl).
Defined.

Lemma last_statement_witness :
  exists w data,
    fetch_from_server (MemDb.engine true)
      (world (run (fetch_from_server (MemDb.engine true)) true
                ["SELECT * FROM notes"] (start notes_db)))
      "select * from notes" = (w, Responded true data) /\
    lastResult (run (fetch_from_server (MemDb.engine true)) true
                  (["SELECT * FROM notes"] ++ ["select * from notes"])
                  (start notes_db)) = Some ("select * from notes", data) /\
    match d_rows data with
    | Some rows =>
        exists columns,
          summary (["SELECT * FROM notes"] ++ ["select * from notes"])
            (run (fetch_from_server (MemDb.engine true)) true
               (["SELECT * FROM notes"] ++ ["select * from notes"])
               (start notes_db)) = Some (ResData rows columns)
    | None =>
        exists message,
          summary (["SELECT * FROM notes"] ++ ["select * from notes"])
            (run (fetch_from_server (MemDb.engine true)) true
               (["SELECT * FROM notes"] ++ ["select * from notes"])
               (start notes_db)) =
            Some (ResSuccess message
                    (totalRowCount
                       (run (fetch_from_server (MemDb.engine true)) true
                          (["SELECT * FROM notes"] ++ ["select * from notes"])
                          (start notes_db))))
    end.
Proof.
  exact (last_statement_decides_the_result
           (fetch_from_server (MemDb.engine true)) true
           ["SELECT * FROM notes"] "select * from notes" (start notes_db)
           eq_refl eq_refl).
Defined.

Lemma blank_blob_witness :
  handleExecuteQuery one_row_each true " ; ;" 0 =
    (start 0, {| shown_error := Some "No valid SQL statements found.";
                 shown_results := None |}).
Proof. exact (blank_blob_sends_nothing one_row_each true " ; ;" 0 eq_refl). Defined.

Lemma fetch_from_server_failure_witness :
  exists f,
    fetch_from_server (MemDb.engine true) notes_db "SELECT * FROM nope" =
      (notes_db, f) /\
    failure_of f =
      Some (or_else "no such table: nope" "Failed to execute query.").
Proof.
  exact (fetch_from_server_failure (MemDb.engine true) notes_db notes_db
           "SELECT * FROM nope" "no such table: nope" eq_refl eq_refl).
Defined.

(** ** The selected table *)

Lemma includes_table_head (x : string) (l : list string) :
  includes_table (x :: l) x = true.
Proof. unfold includes_table. simpl. by rewrite String.eqb_refl. Qed.

(** After the table list is fetched again, a selection that is still in the
    list is kept and any other is replaced by the first table; so the
    selected table is always one of the list, unless the list is empty. *)
Theorem selection_follows_the_list (selectedTable : string)
    (tableList : list string) :
  next_selected selectedTable tableList =
    (if Js.truthy selectedTable && includes_table tableList selectedTable
     then selectedTable else default "" (head tableList)) /\
  (includes_table tableList (next_selected selectedTable tableList) = true \/
   tableList = [] /\ next_selected selectedTable tableList = "").
Proof.
  unfold next_selected.
  destruct selectedTable as [|c s]; simpl.
  - destruct tableList as [|x l]; simpl; [by split; [|right]|].
    split; [done|left]. apply includes_table_head.
  - destruct (includes_table tableList (String c s)) eqn:Hin; simpl;
      [by split; [|left]|].
    destruct tableList as [|x l]; simpl; [by split; [|right]|].
    unfold or_else. destruct x as [|d x]; cbn [Js.truthy];
      (split; [done|left; apply includes_table_head]).
Qed.

(** ** The coercer, beyond the claims *)

(** In a Boolean column every text that is not null coerces to a boolean,
    and to [false] only when it is one of [false], [0], [f] and [no], in
    any letter case: every other text, [off] or [n] too, gives [true]. *)
Theorem boolean_column_coercion (v columnType : string) :
  Js.includes columnType "Boolean" = true ->
  safeTypeConvert (Some v) columnType =
    if String.eqb v "" || String.eqb (Js.toLowerCase v) "null" then VNull
    else VBool (negb (mentions ["false"; "0"; "f"; "no"] (Js.toLowerCase v))).
Proof.
  intros Hb. unfold safeTypeConvert, mentions. rewrite Hb.
  destruct (String.eqb_spec v "") as [->|Hv]; [done|].
  assert (Js.truthy v = true) as -> by (by destruct v).
  cbn [orb existsb].
  destruct (String.eqb_spec (Js.toLowerCase v) "null"); [done|].
  destruct (String.eqb_spec (Js.toLowerCase v) "true") as [E|_]; [by rewrite E|].
  destruct (String.eqb_spec (Js.toLowerCase v) "1") as [E|_]; [by rewrite E|].
  destruct (String.eqb_spec (Js.toLowerCase v) "t") as [E|_]; [by rewrite E|].
  destruct (String.eqb_spec (Js.toLowerCase v) "yes") as [E|_]; [by rewrite E|].
  cbn [orb].
  destruct (String.eqb_spec (Js.toLowerCase v) "false") as [E|_]; [by rewrite E|].
  destruct (String.eqb_spec (Js.toLowerCase v) "0") as [E|_]; [by rewrite E|].
  destruct (String.eqb_spec (Js.toLowerCase v) "f") as [E|_]; [by rewrite E|].
  by destruct (String.eqb_spec (Js.toLowerCase v) "no") as [E|_].
Qed.

Lemma boolean_column_witness :
  safeTypeConvert (Some "Off") "Boolean?" = VBool true.
Proof. exact (boolean_column_coercion "Off" "Boolean?" eq_refl). Defined.

(** ** Pending edits *)




(** The update that this blur sends. *)
Example blur_sends_the_trimmed_text :
  snd (onBlur [("id", "Int"); ("name", "String")]
         [ [("id", VNum (Num.of_Z 1)); ("name", VStr "Ada")] ]
         [("id", VNum (Num.of_Z 1)); ("name", VStr "Ada")] "name" " Bea "
         {| newRows := []; editCache := ∅ |}) =
    Some [("name", VStr "Bea")] /\
  snd (onBlur [("id", "Int"); ("name", "String")]
         [ [("id", VNum (Num.of_Z 1)); ("name", VStr "Ada")] ]
         [("id", VNum (Num.of_Z 1)); ("name", VStr "Ada")] "name" " Ada "
         {| newRows := []; editCache := ∅ |}) = None.
Proof. by vm_compute. Qed.

(** ** Numbers in a numeric column *)

Lemma string_of_uint_digits (d : Decimal.uint) :
  Js.all_chars Js.is_digit (DecimalString.NilEmpty.string_of_uint d) = true.
Proof. induction d; simpl; auto. Qed.

Lemma string_of_uint_empty (d : Decimal.uint) :
  DecimalString.NilEmpty.string_of_uint d = "" -> d = Decimal.Nil.
Proof. by destruct d. Qed.

Lemma digits_of_head (m : N) :
  exists d rest,
    Js.is_digit d = true /\ Js.all_chars Js.is_digit rest = true /\
    Num.digits_of m = String d rest.
Proof.
  pose proof (string_of_uint_digits (N.to_uint m)) as Hd.
  unfold Num.digits_of.
  destruct (DecimalString.NilEmpty.string_of_uint (N.to_uint m))
    as [|d rest] eqn:Hs.
  - apply string_of_uint_empty in Hs. destruct m as [|p]; [done|].
    by apply DecimalPos.Unsigned.to_uint_nonnil in Hs.
  - simpl in Hd. apply andb_true_iff in Hd as [? ?]. eauto.
Qed.

(** The text of a finite number begins with a digit, after its sign. *)
Lemma toString_head (neg : bool) (m : N) (e : Z) :
  exists d rest,
    Js.is_digit d = true /\
    (Num.toString (Num.Dec neg m e) = String d rest \/
     Num.toString (Num.Dec neg m e) = String "-" (String d rest)).
Proof.
  unfold Num.toString. destruct (m =? 0)%N.
  { exists "0"%char, "". split; [done|by left]. }
  destruct (digits_of_head m) as (d & rest & Hd & _ & ->).
  set (k := Z.of_nat (String.length (String d rest))).
  assert (exists tail,
    (if (k <=? k + e)%Z && (k + e <=? 21)%Z
     then String d rest +:+ Num.zeros (Z.to_nat (k + e - k))
     else if (0 <? k + e)%Z && (k + e <=? 21)%Z
          then Num.take (Z.to_nat (k + e)) (String d rest) +:+ "." +:+
               Js.drop (Z.to_nat (k + e)) (String d rest)
          else if (-6 <? k + e)%Z && (k + e <=? 0)%Z
               then "0." +:+ Num.zeros (Z.to_nat (- (k + e))) +:+
                    String d rest
               else if (k =? 1)%Z
                    then String d rest +:+ "e" +:+
                         (if (k + e - 1 <? 0)%Z then "-" else "+") +:+
                         Num.digits_of (Z.abs_N (k + e - 1))
                    else Num.take 1 (String d rest) +:+ "." +:+
                         Js.drop 1 (String d rest) +:+ "e" +:+
                         (if (k + e - 1 <? 0)%Z then "-" else "+") +:+
                         Num.digits_of (Z.abs_N (k + e - 1))) =
    String (if (k <=? k + e)%Z && (k + e <=? 21)%Z then d
            else if (0 <? k + e)%Z && (k + e <=? 21)%Z then d
            else if (-6 <? k + e)%Z && (k + e <=? 0)%Z then "0"%char
            else d) tail) as [tail Hbody].
  { destruct ((k <=? k + e)%Z && (k + e <=? 21)%Z); [by eexists|].
    destruct ((0 <? k + e)%Z && (k + e <=? 21)%Z) eqn:Hpos.
    - apply andb_true_iff in Hpos as [Hpos _]. apply Z.ltb_lt in Hpos.
      destruct (Z.to_nat (k + e)) as [|n] eqn:Hn; [lia|]. by eexists.
    - destruct ((-6 <? k + e)%Z && (k + e <=? 0)%Z); [by eexists|].
      destruct (k =? 1)%Z; by eexists. }
  rewrite Hbody.
  eexists _, tail. split; [|destruct neg; [by right|by left]].
  repeat case_match; done.
Qed.

Lemma strip_zeros_exponent (fuel : nat) : forall m e,
  (0 <= e)%Z -> (0 <= snd (Num.strip_zeros fuel m e))%Z.
Proof.
  induction fuel as [|fuel IH]; intros m e He; simpl; [done|].
  destruct (m =? 0)%N; [done|].
  destruct (m mod 10 =? 0)%N; [|done]. apply IH. lia.
Qed.

Lemma canon_is_integer (neg : bool) (m : N) :
  exists m' e', Num.canon neg m 0 = Num.Dec neg m' e' /\ (0 <= e')%Z.
Proof.
  unfold Num.canon.
  pose proof (strip_zeros_exponent (S (N.size_nat m)) m 0 (Z.le_refl 0)) as H.
  destruct (Num.strip_zeros _ m 0) as [m' e']. by exists m', e'.
Qed.

Lemma span_digits_head (d : ascii) (rest : string) :
  Js.is_digit d = true ->
  exists ds r, Num.span_digits (String d rest) = (String d ds, r).
Proof.
  intros Hd. simpl. rewrite Hd.
  destruct (Num.span_digits rest) as [ds r]. eauto.
Qed.

Lemma digit_is_plain (d : ascii) :
  Js.is_digit d = true ->
  Js.is_white d = false /\ d <> "-"%char /\ d <> "+"%char.
Proof. destruct d as [[] [] [] [] [] [] [] []]; by vm_compute. Qed.

(** Read back as an integer, the text of a finite number is an integer. *)
Lemma parseInt10_of_toString (neg : bool) (m : N) (e : Z) :
  exists n' m' e',
    Num.parseInt10 (Num.toString (Num.Dec neg m e)) = Num.Dec n' m' e' /\
    (0 <= e')%Z.
Proof.
  destruct (toString_head neg m e) as (d & rest & Hd & [-> | ->]);
    destruct (digit_is_plain d Hd) as (Hw & Hminus & Hplus);
    destruct (span_digits_head d rest Hd) as (ds & r & Hspan);
    unfold Num.parseInt10; cbn [Js.trimStart]; rewrite ?Hw;
    change (Js.is_white "-") with false; cbv iota.
  - assert (Num.sign (String d rest) = (false, String d rest)) as ->.
    { unfold Num.sign. destruct d as [[] [] [] [] [] [] [] []]; done. }
    rewrite Hspan. cbn [Num.is_empty Js.truthy negb].
    unfold Num.of_Z.
    destruct (canon_is_integer
                (Num.round53 (Z.of_N (Num.digits_value 0 (String d ds))) <? 0)%Z
                (Z.abs_N (Num.round53
                            (Z.of_N (Num.digits_value 0 (String d ds))))))
      as (m' & e' & -> & He). eauto.
  - cbn [Num.sign]. rewrite Hspan. cbn [Num.is_empty Js.truthy negb].
    unfold Num.of_Z.
    destruct (canon_is_integer
                (Num.round53 (Z.of_N (Num.digits_value 0 (String d ds))) <? 0)%Z
                (Z.abs_N (Num.round53
                            (Z.of_N (Num.digits_value 0 (String d ds))))))
      as (m' & e' & -> & He). eauto.
Qed.

(** In a column of a numeric type that is not Boolean, a text coerces to
    null or to a finite number, never to a text, to NaN or to an infinity;
    and in an integer column the number is an integer. *)
Theorem numeric_column_coercion (v columnType : string) :
  Js.includes columnType "Boolean" = false ->
  is_numeric_type columnType = true ->
  match safeTypeConvert (Some v) columnType with
  | VNull => True
  | VNum (Num.Dec _ _ e) => Js.includes columnType "Int" = true -> (0 <= e)%Z
  | _ => False
  end.
Proof.
  intros Hb Hn. unfold safeTypeConvert. unfold is_numeric_type in Hn.
  rewrite Hb, Hn.
  destruct (String.eqb v "" || String.eqb (Js.toLowerCase v) "null");
    [exact I|].
  destruct (Num.parseFloat v) as [|neg|neg m e];
    cbn [Num.isNaN Num.isFinite negb andb]; [exact I|exact I|].
  destruct (Js.includes columnType "Int"); [|done].
  by destruct (parseInt10_of_toString neg m e) as (n' & m' & e' & -> & He).
Qed.

Lemma numeric_column_witness :
  match safeTypeConvert (Some "12.75") "BigInt" with
  | VNull => True
  | VNum (Num.Dec _ _ e) => Js.includes "BigInt" "Int" = true -> (0 <= e)%Z
  | _ => False
  end.
Proof. exact (numeric_column_coercion "12.75" "BigInt" eq_refl eq_refl). Defined.

(** ** Narrowing a wide integer *)

Lemma strip_zeros_value (fuel : nat) : forall m e,
  (0 <= e)%Z ->
  (Z.of_N (fst (Num.strip_zeros fuel m e)) *
   10 ^ snd (Num.strip_zeros fuel m e) = Z.of_N m * 10 ^ e)%Z.
Proof.
  induction fuel as [|fuel IH]; intros m e He; simpl; [done|].
  destruct (N.eqb_spec m 0) as [->|Hm]; [simpl; lia|].
  destruct (N.eqb_spec (m mod 10) 0) as [Hmod|_]; [|done].
  rewrite IH by lia.
  rewrite Z.pow_add_r by lia.
  rewrite (N.div_mod m 10) at 2 by done. rewrite Hmod.
  rewrite N2Z.inj_add, N2Z.inj_mul. simpl. lia.
Qed.



(** Rounding to 53 bits moves an integer by at most the [2^53]rd part of
    its magnitude. *)
Lemma round53_error (z : Z) :
  (2 ^ 53 * Z.abs (Num.round53 z - z) <= Z.abs z)%Z.
Proof.
  unfold Num.round53.
  set (a := Z.abs z). set (sh := (Z.log2 a - 52)%Z).
  destruct (Z.leb_spec sh 0) as [Hsh|Hsh].
  { rewrite Z.sub_diag. simpl. lia. }
  assert (0 < a)%Z as Ha.
  { destruct (Z.eq_dec a 0%Z) as [E|]; [|lia].
    unfold sh in Hsh. rewrite E in Hsh. simpl in Hsh. lia. }
  destruct (Z.log2_spec a Ha) as [Hlo _].
  rewrite Z.shiftr_div_pow2, Z.land_ones, !Z.shiftl_mul_pow2 by lia.
  assert (Z.log2 a = sh - 1 + 53)%Z as HL by (unfold sh; lia).
  rewrite HL, Z.pow_add_r in Hlo by lia.
  assert (2 ^ sh = 2 * 2 ^ (sh - 1))%Z as Hp.
  { rewrite <- Z.pow_succ_r by lia. f_equal. lia. }
  set (h := (2 ^ (sh - 1))%Z) in *.
  assert (0 < h)%Z as Hh by (apply Z.pow_pos_nonneg; lia).
  rewrite Hp.
  pose proof (Z.div_mod a (2 * h) ltac:(lia)) as Hdm.
  pose proof (Z.mod_pos_bound a (2 * h) ltac:(lia)) as Hr.
  set (q := (a / (2 * h))%Z) in *. set (r := (a mod (2 * h))%Z) in *.
  rewrite Z.mul_1_l.
  assert (z = Z.sgn z * a)%Z as Hz by (unfold a; lia).
  assert (Z.abs (Z.sgn z) = 1)%Z as Hs by lia.
  destruct ((h <? r)%Z || (r =? h)%Z && Z.odd q) eqn:Hup.
  - assert (h <= r)%Z as Hge.
    { apply orb_true_iff in Hup as [Hup|Hup].
      - apply Z.ltb_lt in Hup. lia.
      - apply andb_true_iff in Hup as [Hup _]. apply Z.eqb_eq in Hup. lia. }
    replace (Z.sgn z * ((q + 1) * (2 * h)) - z)%Z
      with (Z.sgn z * ((q + 1) * (2 * h) - a))%Z by lia.
    rewrite Z.abs_mul, Hs. nia.
  - assert (r <= h)%Z as Hle.
    { apply orb_false_iff in Hup as [Hup _]. apply Z.ltb_ge in Hup. lia. }
    replace (Z.sgn z * (q * (2 * h)) - z)%Z
      with (Z.sgn z * (q * (2 * h) - a))%Z by lia.
    rewrite Z.abs_mul, Hs. nia.
Qed.


(** ** The payload of a new row *)

Lemma assign_Forall (Q : string * Value -> Prop) (key : string) (v : Value)
    (obj : Row) :
  Q (key, v) -> Forall Q obj -> Forall Q (assign key v obj).
Proof.
  intros Hv. induction 1 as [|[k old] obj Hold Hobj IH]; simpl.
  - by repeat constructor.
  - destruct (String.eqb_spec k key) as [->|_]; by constructor.
Qed.

(** What the editor posts for a new row never holds the row's temporary
    [id] nor its [isNew] mark; every field it holds is a column of the table
    that the row has a value for, and its value is that value, read as text
    and coerced against the type of a column of that name. *)
Theorem payload_of_a_new_row (columns : list (string * string))
    (newRow : Row) :
  Forall (fun kv =>
            fst kv <> "id" /\ fst kv <> "isNew" /\
            exists type v,
              In (fst kv, type) columns /\
              get (fst kv) newRow = Some v /\
              snd kv = safeTypeConvert (Some (String_of v)) type)
    (finalData columns newRow).
Proof.
  unfold finalData.
  set (P := fun kv : string * Value =>
              fst kv <> "id" /\ fst kv <> "isNew" /\
              exists type v,
                In (fst kv, type) columns /\
                get (fst kv) newRow = Some v /\
                snd kv = safeTypeConvert (Some (String_of v)) type).
  assert (Hgo : forall cs acc,
            (forall c, In c cs -> In c columns) ->
            Forall P acc ->
            Forall P
              (fold_left
                 (fun acc col =>
                    match get (fst col)
                            (delete_key "isNew" (delete_key pkName newRow)) with
                    | Some v =>
                        if negb (String.eqb (fst col) pkName)
                        then assign (fst col)
                               (safeTypeConvert (Some (String_of v)) (snd col))
                               acc
                        else acc
                    | None => acc
                    end) cs acc)).
  { induction cs as [|[f t] cs IH]; intros acc Hin Hacc; [done|].
    simpl. apply IH; [by intros c Hc; apply Hin; right|].
    destruct (get f _) as [v|] eqn:Hget; [|done].
    unfold pkName in *.
    destruct (String.eqb_spec f "id") as [->|Hid]; [done|]. simpl.
    destruct (String.eqb_spec f "isNew") as [->|Hnew].
    { by rewrite get_delete_key_same in Hget. }
    rewrite !get_delete_key_other in Hget by done.
    apply assign_Forall; [|done].
    split_and!; [done|done|]. exists t, v.
    split_and!; [by apply Hin; left|done|done]. }
  by apply Hgo.
Qed.

Lemma assign_fresh (k : string) (v : Value) (obj : Row) :
  get k obj = None -> assign k v obj = obj ++ [(k, v)].
Proof.
  induction obj as [|[x old] obj IH]; simpl; [done|].
  destruct (String.eqb_spec x k) as [->|Hx]; [done|].
  intros H. by rewrite IH.
Qed.

Lemma get_app_none (k : string) (a b : Row) :
  get k a = None -> get k (a ++ b) = get k b.
Proof.
  induction a as [|[x v] a IH]; simpl; [done|].
  by destruct (String.eqb x k).
Qed.

(** What [handleAddRow] leaves in a column of the new row. *)
Lemma added_row_get (tempId f t : string) : forall cs acc,
  NoDup (map fst cs) -> In (f, t) cs -> f <> "id" ->
  get f
    (fold_left
       (fun acc col =>
          if negb (String.eqb (fst col) pkName)
          then assign (fst col) (initial_value (snd col)) acc
          else acc) cs acc) = Some (initial_value t).
Proof.
  assert (Hskip : forall cs acc,
            ~ In f (map fst cs) ->
            get f
              (fold_left
                 (fun acc col =>
                    if negb (String.eqb (fst col) pkName)
                    then assign (fst col) (initial_value (snd col)) acc
                    else acc) cs acc) = get f acc).
  { induction cs as [|[x ty] cs IH]; intros acc Hnot; [done|].
    simpl in *. rewrite IH by tauto.
    destruct (negb _); [|done]. apply get_assign_other.
    intros ->. tauto. }
  induction cs as [|[x ty] cs IH]; intros acc Hnd Hin Hid; [done|].
  cbn [map] in Hnd. apply NoDup_cons in Hnd as [Hx Hnd]. simpl.
  destruct Hin as [[= -> ->]|Hin].
  - rewrite Hskip by (by rewrite <- list_elem_of_In).
    unfold pkName. destruct (String.eqb_spec f "id"); [done|]. simpl.
    apply get_assign_same.
  - by apply IH.
Qed.

Lemma coerced_initial_value (type : string) :
  safeTypeConvert (Some (String_of (initial_value type))) type =
    if negb (is_numeric_type type) && Js.includes type "Boolean"
    then VBool false else VNull.
Proof.
  unfold initial_value. destruct (is_numeric_type type) eqn:Hn; [done|].
  destruct (Js.includes type "Boolean") eqn:Hb; [|done].
  unfold safeTypeConvert. cbn [String_of String.eqb orb].
  by rewrite Hb.
Qed.

(** A new row that is saved as it was added is posted with [false] in every
    Boolean column and [null] in every other one; the temporary id and the
    mark are not posted. *)
Theorem untouched_new_row_payload (columns : list (string * string))
    (tempId : string) :
  NoDup (map fst columns) ->
  finalData columns (added_row columns tempId) =
    map (fun col =>
           (fst col,
            if negb (is_numeric_type (snd col)) &&
               Js.includes (snd col) "Boolean"
            then VBool false else VNull))
      (List.filter
         (fun col => negb (String.eqb (fst col) "id") &&
                     negb (String.eqb (fst col) "isNew")) columns).
Proof.
  intros Hnd. unfold finalData.
  set (row := added_row columns tempId).
  set (post := fun col : string * string =>
                 (fst col,
                  if negb (is_numeric_type (snd col)) &&
                     Js.includes (snd col) "Boolean"
                  then VBool false else VNull)).
  set (ok := fun col : string * string =>
               negb (String.eqb (fst col) "id") &&
               negb (String.eqb (fst col) "isNew")).
  assert (Hgo : forall cs acc,
            NoDup (map fst cs) ->
            (forall c, In c cs -> In c columns) ->
            (forall c, In c cs -> get (fst c) acc = None) ->
            fold_left
              (fun acc col =>
                 match get (fst col)
                         (delete_key "isNew" (delete_key pkName row)) with
                 | Some v =>
                     if negb (String.eqb (fst col) pkName)
                     then assign (fst col)
                            (safeTypeConvert (Some (String_of v)) (snd col))
                            acc
                     else acc
                 | None => acc
                 end) cs acc = acc ++ map post (List.filter ok cs)).
  { induction cs as [|[f t] cs IH]; intros acc Hcs Hin Hacc.
    { simpl. by rewrite app_nil_r. }
    cbn [map] in Hcs. apply NoDup_cons in Hcs as [Hf Hcs].
    assert (List.filter ok ((f, t) :: cs) =
            if negb (String.eqb f "id") && negb (String.eqb f "isNew")
            then (f, t) :: List.filter ok cs else List.filter ok cs) as ->
      by reflexivity.
    cbn [fold_left fst snd]. unfold pkName in *.
    destruct (String.eqb_spec f "id") as [->|Hid].
    { rewrite get_delete_key_other, get_delete_key_same by done. simpl.
      apply IH; [done|by intros c Hc; apply Hin; right|].
      intros c Hc. apply Hacc. by right. }
    destruct (String.eqb_spec f "isNew") as [->|Hnew].
    { rewrite get_delete_key_same. simpl.
      apply IH; [done|by intros c Hc; apply Hin; right|].
      intros c Hc. apply Hacc. by right. }
    rewrite !get_delete_key_other by done.
    assert (get f row = Some (initial_value t)) as ->.
    { unfold row, added_row. apply (added_row_get tempId).
      - exact Hnd.
      - apply Hin. by left.
      - exact Hid. }
    cbn [negb andb map]. rewrite coerced_initial_value.
    rewrite assign_fresh by (by apply (Hacc (f, t)); left).
    rewrite IH; [by rewrite <- app_assoc|done| |].
    - intros c Hc. apply Hin. by right.
    - intros c Hc. rewrite get_app_none by (apply Hacc; by right).
      simpl. destruct (String.eqb_spec f (fst c)) as [E|_]; [|done].
      exfalso. apply Hf. cbn [fst]. rewrite E.
      by apply list_elem_of_In, in_map. }
  by rewrite Hgo.
Qed.

Lemma untouched_new_row_witness :
  finalData [("id", "Int"); ("active", "Boolean"); ("name", "String");
             ("age", "Int")]
    (added_row [("id", "Int"); ("active", "Boolean"); ("name", "String");
                ("age", "Int")] "temp-1") =
  [("active", VBool false); ("name", VNull); ("age", VNull)].
Proof.
  apply (untouched_new_row_payload
           [("id", "Int"); ("active", "Boolean"); ("name", "String");
            ("age", "Int")] "temp-1").
  apply (bool_decide_unpack _). vm_compute. exact I.
Defined.

(** ** Writing and reading integers *)

Lemma digits_value_app (s1 s2 : string) : forall acc,
  Num.digits_value acc (s1 +:+ s2) =
    Num.digits_value (Num.digits_value acc s1) s2.
Proof.
  induction s1 as [|c s1 IH]; intros acc; [done|].
  rewrite str_app_cons. simpl. apply IH.
Qed.

Lemma digits_value_zeros (n : nat) : forall acc,
  Num.digits_value acc (Num.zeros n) = (acc * 10 ^ N.of_nat n)%N.
Proof.
  induction n as [|n IH]; intros acc.
  - simpl. lia.
  - cbn [Num.zeros Num.digits_value]. rewrite IH.
    change (Num.digit_value "0") with 0%N.
    rewrite Nat2N.inj_succ, N.pow_succ_r'. lia.
Qed.

Lemma digits_value_uint (d : Decimal.uint) : forall acc,
  Num.digits_value acc (DecimalString.NilEmpty.string_of_uint d) =
    uint_value acc d.
Proof. induction d; intros acc; simpl; try done; apply IHd. Qed.

Lemma of_uint_acc_value (d : Decimal.uint) : forall p,
  N.pos (Pos.of_uint_acc d p) = uint_value (N.pos p) d.
Proof.
  induction d; intros p; simpl; try done; rewrite IHd; f_equal; lia.
Qed.

Lemma uint_value_of_uint (d : Decimal.uint) : uint_value 0 d = N.of_uint d.
Proof.
  unfold N.of_uint.
  induction d; simpl; try done; by rewrite of_uint_acc_value.
Qed.

(** The digits of a number write that number. *)
Lemma digits_of_value (m : N) : Num.digits_value 0 (Num.digits_of m) = m.
Proof.
  unfold Num.digits_of.
  rewrite digits_value_uint, uint_value_of_uint.
  apply DecimalN.Unsigned.of_to.
Qed.

Lemma digits_value_lower (s : string) : forall acc,
  (acc * 10 ^ N.of_nat (String.length s) <= Num.digits_value acc s)%N.
Proof.
  induction s as [|c s IH]; intros acc.
  - simpl. lia.
  - cbn [String.length Num.digits_value].
    rewrite Nat2N.inj_succ, N.pow_succ_r'.
    etrans; [|apply IH]. rewrite N.mul_assoc.
    apply N.mul_le_mono_r. lia.
Qed.

Lemma nzhead_not_zero (d l : Decimal.uint) :
  Decimal.nzhead d <> Decimal.D0 l.
Proof. induction d; simpl; done. Qed.

Lemma to_uint_head (p : positive) (l : Decimal.uint) :
  Pos.to_uint p <> Decimal.D0 l.
Proof.
  intros H.
  pose proof (DecimalPos.Unsigned.to_of (Pos.to_uint p)) as Hn.
  rewrite DecimalPos.Unsigned.of_to in Hn. simpl in Hn.
  rewrite H in Hn. unfold Decimal.unorm in Hn. simpl in Hn.
  destruct (Decimal.nzhead l) eqn:Hl; try discriminate.
  - injection Hn as ->.
    by apply (DecimalPos.Unsigned.to_uint_nonzero p).
  - by apply (nzhead_not_zero l u).
Qed.

(** A number other than zero has no more digits than its size allows. *)
Lemma digits_of_lower (m : N) :
  m <> 0%N ->
  (10 ^ N.of_nat (String.length (Num.digits_of m)) <= 10 * m)%N.
Proof.
  intros Hm. destruct m as [|p]; [done|].
  pose proof (digits_of_value (N.pos p)) as Hv.
  unfold Num.digits_of in *. simpl in *.
  destruct (Pos.to_uint p) as [|l|l|l|l|l|l|l|l|l|l] eqn:E.
  { by apply DecimalPos.Unsigned.to_uint_nonnil in E. }
  { by apply to_uint_head in E. }
  all: cbn [DecimalString.NilEmpty.string_of_uint String.length
            Num.digits_value] in *;
    rewrite Nat2N.inj_succ, N.pow_succ_r';
    apply N.mul_le_mono_l; rewrite <- Hv;
    etrans; [|apply digits_value_lower];
    rewrite <- (N.mul_1_l (10 ^ _)) at 1;
    apply N.mul_le_mono_r; by vm_compute.
Qed.

Lemma span_digits_all (s : string) :
  Js.all_chars Js.is_digit s = true -> Num.span_digits s = (s, "").
Proof.
  induction s as [|c s IH]; intros H; [done|].
  simpl in *. apply andb_true_iff in H as [-> H]. by rewrite IH.
Qed.

Lemma digits_have_no_radix_prefix (s : string) :
  Js.all_chars Js.is_digit s = true ->
  Js.startsWith s "0x" || Js.startsWith s "0X" = false.
Proof.
  destruct s as [|c [|d s]]; [done| |].
  - intros _. simpl. by rewrite !andb_false_r.
  - simpl. intros H.
    apply andb_true_iff in H as [_ H]. apply andb_true_iff in H as [H _].
    assert (Ascii.eqb d "x" = false /\ Ascii.eqb d "X" = false) as [-> ->].
    { destruct d as [[] [] [] [] [] [] [] []]; by vm_compute. }
    by rewrite !andb_false_r.
Qed.

(** [parseInt] reads a run of digits, signed or not, as its value. *)
Lemma parseInt_digits (neg : bool) (d : ascii) (rest : string) :
  Js.all_chars Js.is_digit (String d rest) = true ->
  Num.parseInt (if neg then "-" +:+ String d rest else String d rest) =
    Num.signed neg
      (Num.of_Z (Z.of_N (Num.digits_value 0 (String d rest)))).
Proof.
  intros H.
  pose proof (digits_have_no_radix_prefix _ H) as Hx.
  pose proof (span_digits_all _ H) as Hspan.
  assert (Js.is_digit d = true) as Hd.
  { simpl in H. by apply andb_true_iff in H as [? _]. }
  destruct (digit_is_plain d Hd) as (Hw & Hminus & Hplus).
  unfold Num.parseInt. destruct neg.
  - rewrite str_app_cons, str_app_empty_l. cbn [Js.trimStart].
    change (Js.is_white "-") with false. cbv iota. cbn [Num.sign].
    rewrite Hx, Hspan. done.
  - cbn [Js.trimStart]. rewrite Hw.
    assert (Num.sign (String d rest) = (false, String d rest)) as ->.
    { unfold Num.sign. destruct d as [[] [] [] [] [] [] [] []]; done. }
    rewrite Hx, Hspan. done.
Qed.

Lemma round53_small (z : Z) :
  (Z.abs z < 2 ^ 53)%Z -> Num.round53 z = z.
Proof.
  intros H. pose proof (round53_error z) as He.
  change (2 ^ 53)%Z with 9007199254740992%Z in *. lia.
Qed.

Lemma zeros_digits (n : nat) : Js.all_chars Js.is_digit (Num.zeros n) = true.
Proof. induction n; [done|]. simpl. exact IHn. Qed.

(** The text of a whole number below [2^53] other than zero: its decimal
    digits, after a minus sign if it is negative. *)
Lemma toString_canon (neg : bool) (a : N) :
  (a < 2 ^ 53)%N -> a <> 0%N ->
  exists d rest,
    Js.all_chars Js.is_digit (String d rest) = true /\
    Num.digits_value 0 (String d rest) = a /\
    Num.toString (Num.canon neg a 0) =
      (if neg then "-" +:+ String d rest else String d rest).
Proof.
  intros Ha Hnz.
  unfold Num.canon.
  pose proof (strip_zeros_value (S (N.size_nat a)) a 0 (Z.le_refl 0)) as Hv.
  pose proof (strip_zeros_exponent (S (N.size_nat a)) a 0 (Z.le_refl 0)) as He.
  destruct (Num.strip_zeros _ a 0) as [m' e'] eqn:Hs. simpl in Hv, He.
  assert (m' <> 0%N) as Hm' by (intros ->; simpl in Hv; lia).
  unfold Num.toString. rewrite (proj2 (N.eqb_neq m' 0%N) Hm').
  pose proof (digits_of_lower m' Hm') as Hlow.
  destruct (digits_of_head m') as (d & rest & Hd & Hrest & Hdig).
  set (k := Z.of_nat (String.length (Num.digits_of m'))).
  assert (k + e' <= 21)%Z as Hk.
  { apply N2Z.inj_le in Hlow.
    rewrite N2Z.inj_mul, N2Z.inj_pow, nat_N_Z in Hlow. fold k in Hlow.
    apply N2Z.inj_lt in Ha. rewrite N2Z.inj_pow in Ha.
    assert (10 ^ (k + e') < 10 ^ 17)%Z as Hp.
    { rewrite Z.pow_add_r by lia.
      assert (0 < 10 ^ e')%Z by (apply Z.pow_pos_nonneg; lia).
      apply Z.le_lt_trans with (Z.of_N 10 * Z.of_N m' * 10 ^ e')%Z.
      - apply Z.mul_le_mono_nonneg_r; lia.
      - rewrite <- Z.mul_assoc, Hv. simpl Z.of_N in *.
        change (2 ^ 53)%Z with 9007199254740992%Z in Ha.
        change (10 ^ 17)%Z with 100000000000000000%Z.
        change (10 ^ 0)%Z with 1%Z. lia. }
    apply Z.pow_lt_mono_r_iff in Hp; lia. }
  assert ((k <=? k + e')%Z && (k + e' <=? 21)%Z = true) as ->.
  { apply andb_true_iff. split; apply Z.leb_le; lia. }
  replace (k + e' - k)%Z with e' by lia.
  exists d, (rest +:+ Num.zeros (Z.to_nat e')). split_and!.
  - cbn [Js.all_chars]. by rewrite Hd, all_chars_app, Hrest, zeros_digits.
  - rewrite <- (str_app_cons d rest), <- Hdig.
    rewrite digits_value_app, digits_of_value, digits_value_zeros.
    apply N2Z.inj. rewrite N2Z.inj_mul, N2Z.inj_pow, nat_N_Z, Z2Nat.id by lia.
    change (Z.of_N 10) with 10%Z. rewrite Hv.
    change (10 ^ 0)%Z with 1%Z. lia.
  - by rewrite Hdig, (str_app_cons d rest).
Qed.

Lemma of_Z_of_N (a : N) :
  (a < 2 ^ 53)%N -> Num.of_Z (Z.of_N a) = Num.canon false a 0.
Proof.
  intros Ha. unfold Num.of_Z. rewrite round53_small.
  - rewrite Zabs2N.id.
    by assert ((Z.of_N a <? 0)%Z = false) as -> by (apply Z.ltb_ge; lia).
  - apply N2Z.inj_lt in Ha. rewrite N2Z.inj_pow in Ha. simpl Z.of_N in Ha.
    lia.
Qed.

Lemma signed_canon (neg : bool) (a : N) :
  Num.signed neg (Num.canon false a 0) = Num.canon neg a 0.
Proof. unfold Num.canon. by destruct (Num.strip_zeros _ a 0). Qed.

(** The text of an integer below [2^53] reads back as that integer. *)
Lemma parseInt_toString_canon (neg : bool) (a : N) :
  (a < 2 ^ 53)%N -> (a = 0%N -> neg = false) ->
  Num.parseInt (Num.toString (Num.canon neg a 0)) = Num.canon neg a 0.
Proof.
  intros Ha Hneg.
  destruct (N.eq_dec a 0%N) as [->|Hnz]; [rewrite Hneg; done|].
  destruct (toString_canon neg a Ha Hnz) as (d & rest & Hall & Hval & ->).
  by rewrite (parseInt_digits neg _ _ Hall), Hval, of_Z_of_N, signed_canon.
Qed.

(** The identifier that the table editor puts in the address of an update
    or of a deletion is the text of a number; for an integer of magnitude
    below [2^53] the server reads that very integer back from it. *)
Theorem identifier_survives_the_address (z : Z) :
  (Z.abs z < 2 ^ 53)%Z ->
  Num.parseInt (String_of (VNum (Num.of_Z z))) = Num.of_Z z.
Proof.
  intros H. cbn [String_of]. unfold Num.of_Z.
  rewrite (round53_small z H).
  apply parseInt_toString_canon.
  - apply N2Z.inj_lt. rewrite N2Z.inj_abs_N, N2Z.inj_pow. exact H.
  - intros E. apply Z.ltb_ge. lia.
Qed.

Lemma identifier_survives_witness :
  (Z.abs (-1200) < 2 ^ 53)%Z /\
  Num.parseInt (String_of (VNum (Num.of_Z (-1200)))) = Num.of_Z (-1200).
Proof.
  split; [by vm_compute|].
  apply (identifier_survives_the_address (-1200)). by vm_compute.
Defined.

(** ** Integers in a numeric column *)

Lemma parseFloat_digits (neg : bool) (d : ascii) (rest : string) :
  Js.all_chars Js.is_digit (String d rest) = true ->
  Num.parseFloat (if neg then "-" +:+ String d rest else String d rest) =
    Num.of_decimal neg (Num.digits_value 0 (String d rest)) 0.
Proof.
  intros H.
  pose proof (span_digits_all _ H) as Hspan.
  assert (Js.is_digit d = true) as Hd.
  { simpl in H. by apply andb_true_iff in H as [? _]. }
  destruct (digit_is_plain d Hd) as (Hw & Hminus & Hplus).
  assert (Js.startsWith (String d rest) "Infinity" = false) as Hinf.
  { revert Hd. destruct d as [[] [] [] [] [] [] [] []]; by vm_compute. }
  unfold Num.parseFloat. destruct neg.
  - rewrite str_app_cons, str_app_empty_l. cbn [Js.trimStart].
    change (Js.is_white "-") with false. cbv iota. cbn [Num.sign].
    rewrite Hinf, Hspan. cbn [Num.is_empty Js.truthy negb andb].
    by rewrite str_app_empty_r.
  - cbn [Js.trimStart]. rewrite Hw.
    assert (Num.sign (String d rest) = (false, String d rest)) as ->.
    { unfold Num.sign. destruct d as [[] [] [] [] [] [] [] []]; done. }
    rewrite Hinf, Hspan. cbn [Num.is_empty Js.truthy negb andb].
    by rewrite str_app_empty_r.
Qed.

Lemma parseInt10_digits (neg : bool) (d : ascii) (rest : string) :
  Js.all_chars Js.is_digit (String d rest) = true ->
  Num.parseInt10 (if neg then "-" +:+ String d rest else String d rest) =
    Num.signed neg
      (Num.of_Z (Z.of_N (Num.digits_value 0 (String d rest)))).
Proof.
  intros H.
  pose proof (span_digits_all _ H) as Hspan.
  assert (Js.is_digit d = true) as Hd.
  { simpl in H. by apply andb_true_iff in H as [? _]. }
  destruct (digit_is_plain d Hd) as (Hw & Hminus & Hplus).
  unfold Num.parseInt10. destruct neg.
  - rewrite str_app_cons, str_app_empty_l. cbn [Js.trimStart].
    change (Js.is_white "-") with false. cbv iota. cbn [Num.sign].
    rewrite Hspan. cbn [Num.is_empty Js.truthy negb].
    by destruct (Num.of_Z _).
  - cbn [Js.trimStart]. rewrite Hw.
    assert (Num.sign (String d rest) = (false, String d rest)) as ->.
    { unfold Num.sign. destruct d as [[] [] [] [] [] [] [] []]; done. }
    rewrite Hspan. cbn [Num.is_empty Js.truthy negb].
    by destruct (Num.of_Z _).
Qed.

Lemma of_decimal_small (neg : bool) (a : N) :
  (a < 2 ^ 53)%N -> a <> 0%N ->
  Num.of_decimal neg a 0 = Num.canon neg a 0.
Proof.
  intros Ha Hnz. unfold Num.of_decimal, Num.overflows, Num.underflows.
  cbn [Z.leb Z.compare].
  apply N2Z.inj_lt in Ha. rewrite N2Z.inj_pow in Ha. simpl Z.of_N in Ha.
  assert ((2 ^ 1024 - 2 ^ 970 <=? Z.of_N a * 10 ^ 0)%Z = false) as ->.
  { apply Z.leb_gt. rewrite Z.mul_1_r.
    eapply Z.lt_trans; [exact Ha|]. by vm_compute. }
  by rewrite (proj2 (N.eqb_neq a 0%N) Hnz).
Qed.

Lemma canon_is_finite (neg : bool) (a : N) :
  negb (Num.isNaN (Num.canon neg a 0)) && Num.isFinite (Num.canon neg a 0)
  = true.
Proof. unfold Num.canon. by destruct (Num.strip_zeros _ a 0). Qed.

Lemma digits_are_not_null (neg : bool) (d : ascii) (rest : string) :
  Js.is_digit d = true ->
  let text := if neg then "-" +:+ String d rest else String d rest in
  String.eqb text "" || String.eqb (Js.toLowerCase text) "null" = false.
Proof.
  destruct neg; [done|].
  destruct d as [[] [] [] [] [] [] [] []]; by vm_compute.
Qed.

(** Sent as text to a numeric column that is not Boolean, an integer of
    magnitude below [2^53] is coerced to that very integer, whether the
    column is an integer column or not. *)
Theorem safe_integer_keeps_its_value (z : Z) (columnType : string) :
  Js.includes columnType "Boolean" = false ->
  is_numeric_type columnType = true ->
  (Z.abs z < 2 ^ 53)%Z ->
  safeTypeConvert (Some (String_of (VNum (Num.of_Z z)))) columnType =
    VNum (Num.of_Z z).
Proof.
  intros Hb Hn Hz. unfold is_numeric_type in Hn.
  cbn [String_of]. unfold Num.of_Z. rewrite (round53_small z Hz).
  assert (Z.abs_N z < 2 ^ 53)%N as Ha.
  { apply N2Z.inj_lt. rewrite N2Z.inj_abs_N, N2Z.inj_pow. exact Hz. }
  destruct (N.eq_dec (Z.abs_N z) 0%N) as [E|Hnz].
  { assert (z = 0%Z) as -> by lia.
    unfold safeTypeConvert.
    change (Num.toString _) with "0". cbn [String.eqb Js.toLowerCase
      Js.map_chars orb Ascii.eqb Bool.eqb Js.lower_char].
    rewrite Hb, Hn. by destruct (Js.includes columnType "Int"). }
  destruct (toString_canon (z <? 0)%Z _ Ha Hnz)
    as (d & rest & Hall & Hval & Htext).
  assert (Js.is_digit d = true) as Hd.
  { simpl in Hall. by apply andb_true_iff in Hall as [? _]. }
  set (c := Num.canon (z <? 0)%Z (Z.abs_N z) 0) in *.
  assert (Num.parseFloat (Num.toString c) = c) as Hpf.
  { by rewrite Htext, (parseFloat_digits _ _ _ Hall), Hval,
      (of_decimal_small _ _ Ha Hnz). }
  assert (Num.parseInt10 (Num.toString c) = c) as Hpi.
  { by rewrite Htext, (parseInt10_digits _ _ _ Hall), Hval, of_Z_of_N,
      signed_canon. }
  assert (String.eqb (Num.toString c) "" ||
          String.eqb (Js.toLowerCase (Num.toString c)) "null" = false) as Hnn.
  { rewrite Htext. exact (digits_are_not_null (z <? 0)%Z d rest Hd). }
  unfold safeTypeConvert. rewrite Hnn, Hb, Hn. cbv zeta.
  rewrite !Hpf, Hpi. unfold c. rewrite canon_is_finite.
  by destruct (Js.includes columnType "Int").
Qed.

Lemma safe_integer_witness :
  Js.includes "BigInt" "Boolean" = false /\
  is_numeric_type "BigInt" = true /\
  (Z.abs 4500 < 2 ^ 53)%Z /\
  safeTypeConvert (Some (String_of (VNum (Num.of_Z 4500)))) "BigInt" =
    VNum (Num.of_Z 4500).
Proof.
  split_and!; [done|done|by vm_compute|].
  apply (safe_integer_keeps_its_value 4500 "BigInt"); [done|done|].
  by vm_compute.
Defined.
